(** * policy-peeker backend: the POST /summarize pipeline of [src/server.js]

    A shallow embedding of the request handler of [src/server.js] (lines
    65-149) and of the middleware in front of it (lines 24-29), with the
    JavaScript built-ins it calls.

    - A JavaScript string is the list of its UTF-16 code units ([jsstring]),
      so [length] is [String.prototype.length].
    - A JavaScript value is a [value]; [JSON_parse] is [JSON.parse], and
      [sent] is what a client reads of [JSON.stringify]: the body of a 200
      response is the value handed to [res.json] as it is sent.
    - [try]/[catch], [throw] and the early [return res.status(400)...] of the
      handler are the three outcomes of [flow].
    - A request is one that [helmet], the body parser of line 21 and the
      CORS check of lines 31-42 let through, with its body parsed.
    - [ALLOWED_ORIGINS] and [cors_allows] are line 17 and the CORS check
      on their own; [system], [user] and [callOpenAIChat_with] are the
      prompt of lines 79-106 and the call of lines 45-58.
    - The completion service ([callOpenAIChat], lines 45-58) is an oracle the
      handler consults with the language and the sanitised text, from which
      the prompt of lines 79-106 is rendered. *)

From Stdlib Require Import List ZArith NArith Lia Bool String Ascii.
Import ListNotations.

Local Open Scope Z_scope.
Set Warnings "-register-all".

(** ** Strings *)

(** A string of the program: its UTF-16 code units. *)
Definition jsstring : Type := list N.

(** The code units of an ASCII literal of this file. *)
Definition str (s : string) : jsstring :=
  map N_of_ascii (list_ascii_of_string s).

(** The same, with every apostrophe read as a double quote (U+0022): JSON
    texts are written with apostrophes below. *)
Definition json_text (s : string) : jsstring :=
  map (fun c => if N.eqb c 39 then 34%N else c) (str s).

Definition jsstring_eqb (a b : jsstring) : bool :=
  if list_eq_dec N.eq_dec a b then true else false.

(** [s.length] *)
Definition jslength (s : jsstring) : Z := Z.of_nat (List.length s).

(** The code units [String.prototype.trim] strips and the class [\s] of a
    regular expression matches: WhiteSpace and LineTerminator. *)
Definition is_space (c : N) : bool :=
  ((9 <=? c) && (c <=? 13) || (c =? 32) || (c =? 160) || (c =? 5760)
   || (8192 <=? c) && (c <=? 8202) || (c =? 8232) || (c =? 8233)
   || (c =? 8239) || (c =? 8287) || (c =? 12288) || (c =? 65279))%N.

Fixpoint drop_spaces (s : jsstring) : jsstring :=
  match s with
  | [] => []
  | c :: r => if is_space c then drop_spaces r else s
  end.

(** [s.trim()] *)
Definition trim (s : jsstring) : jsstring :=
  rev (drop_spaces (rev (drop_spaces s))).

(** [s.replace(/c/g, by)] for a pattern of one code unit. *)
Definition replace_all (c : N) (by_ : jsstring) (s : jsstring) : jsstring :=
  flat_map (fun x => if N.eqb x c then by_ else [x]) s.

(** Modelled from the spec: [escape] is the HTML-entity escaping of the
    [validator] package (imported at lines 7-8, not under src/): eight
    global replacements, the ampersand first. *)
Definition escape (s : jsstring) : jsstring :=
  replace_all 96 (str "&#96;")
    (replace_all 92 (str "&#x5C;")
      (replace_all 47 (str "&#x2F;")
        (replace_all 62 (str "&gt;")
          (replace_all 60 (str "&lt;")
            (replace_all 39 (str "&#x27;")
              (replace_all 34 (str "&quot;")
                (replace_all 38 (str "&amp;") s))))))).

(** [s.replace(/\s+/g, " ")]: [in_run] says the previous code unit was a
    space of the run being replaced. *)
Fixpoint collapse_from (in_run : bool) (s : jsstring) : jsstring :=
  match s with
  | [] => []
  | c :: r =>
      if is_space c
      then (if in_run then collapse_from true r else 32%N :: collapse_from true r)
      else c :: collapse_from false r
  end.

Definition collapse_spaces (s : jsstring) : jsstring := collapse_from false s.

(** [s.slice(0, n)] for [0 <= n]. *)
Definition slice0 (n : Z) (s : jsstring) : jsstring := firstn (Z.to_nat n) s.

(** Line 76: [escape(trimmed).replace(/\s+/g, " ").slice(0, 20000)]. *)
Definition safeText (trimmed : jsstring) : jsstring :=
  slice0 20000 (collapse_spaces (escape trimmed)).

(** At most 20000 code units, none of them '<' or '>'. *)
Definition sanitised (t : jsstring) : bool :=
  (jslength t <=? 20000) && negb (existsb (N.eqb 60) t) && negb (existsb (N.eqb 62) t).

(** [s.toLowerCase()] on the Basic Latin block: A-Z are mapped, every other
    code unit is kept.  The handler only compares the result with "pro" and
    "warning" (line 133), and no code unit outside A-Z lower-cases to a
    letter of these two words, so the comparison is the one of the program. *)
Definition toLowerCase (s : jsstring) : jsstring :=
  map (fun c => if ((65 <=? c) && (c <=? 90))%N then (c + 32)%N else c) s.

(** ** Values *)

(** A number as a JSON literal denotes it: [(-1)^neg * mant * 10^exp10].
    [JSON.parse] rounds this to an IEEE double; the handler observes the
    double only through [ToBoolean] and [String]. *)
Record number : Type := mkNumber { num_neg : bool; num_mant : N; num_exp10 : Z }.

(** The values [JSON.parse] builds, and [undefined] for a property that is
    not there.  An object keeps its members in source order. *)
Inductive value : Type :=
| VUndefined
| VNull
| VBool (b : bool)
| VNum (n : number)
| VStr (s : jsstring)
| VArr (items : list value)
| VObj (members : list (jsstring * value)).

(** The double nearest to the literal is (plus or minus) zero: the literal
    is zero or at most [2^-1075] in magnitude, half the least subnormal
    (ties go to the even mantissa, zero). *)
Definition number_is_zero (n : number) : bool :=
  (num_mant n =? 0)%N
  || (num_exp10 n <? 0)
     && (Z.of_N (num_mant n) * 2 ^ 1075 <=? 10 ^ (- num_exp10 n)).

(** The double nearest to the literal is (plus or minus) infinity: the
    literal is at least [2^1024 - 2^970] in magnitude, half way from the
    largest double to [2^1024] (ties go to the even mantissa, up). *)
Definition number_is_infinite (n : number) : bool :=
  (0 <=? num_exp10 n)
  && (2 ^ 1024 - 2 ^ 970 <=? Z.of_N (num_mant n) * 10 ^ num_exp10 n)
  || (num_exp10 n <? 0)
     && ((2 ^ 1024 - 2 ^ 970) * 10 ^ (- num_exp10 n) <=? Z.of_N (num_mant n)).

(** What a client reads of [JSON.stringify(v)]: a number that is not
    finite is written [null] and minus zero is written [0]; [undefined] is
    written [null] in an array and left out of an object; everything else
    is written as it is.  (No value here has a [toJSON] that can be called.) *)
Fixpoint sent (v : value) : value :=
  match v with
  | VUndefined => VNull
  | VNum n =>
      if number_is_infinite n then VNull
      else if number_is_zero n then VNum (mkNumber false (num_mant n) (num_exp10 n))
      else VNum n
  | VArr items => VArr (map sent items)
  | VObj members =>
      VObj ((fix members_sent (l : list (jsstring * value)) : list (jsstring * value) :=
               match l with
               | [] => []
               | (k, x) :: rest =>
                   match x with
                   | VUndefined => members_sent rest
                   | _ => (k, sent x) :: members_sent rest
                   end
               end) members)
  | _ => v
  end.

(** [ToBoolean]: what [!v], [v || d] and [v && w] test. *)
Definition ToBoolean (v : value) : bool :=
  match v with
  | VUndefined | VNull => false
  | VBool b => b
  | VNum n => negb (number_is_zero n)
  | VStr s => match s with [] => false | _ => true end
  | VArr _ | VObj _ => true
  end.

(** [a || b] *)
Definition or_else (a b : value) : value := if ToBoolean a then a else b.

(** The own property [k] of an object built by [JSON.parse]: of two members
    with one name the later wins. *)
Fixpoint own_property (k : jsstring) (members : list (jsstring * value)) : option value :=
  match members with
  | [] => None
  | (k', v) :: rest =>
      match own_property k rest with
      | Some w => Some w
      | None => if jsstring_eqb k k' then Some v else None
      end
  end.

(** [v.k] for the names the handler reads ([text], [language], [summary],
    [bullets], [rating], [type]): none is a property of a built-in
    prototype, so only an object can have it.  [None] is the TypeError of
    reading a property of [null] or [undefined]. *)
Definition Get (v : value) (k : jsstring) : option value :=
  match v with
  | VUndefined | VNull => None
  | VObj members =>
      Some (match own_property k members with Some w => w | None => VUndefined end)
  | _ => Some VUndefined
  end.

(** Induction on a value through its elements and members. *)
Fixpoint value_nested_ind (P : value -> Prop)
    (Hundefined : P VUndefined) (Hnull : P VNull)
    (Hbool : forall b, P (VBool b)) (Hnum : forall n, P (VNum n))
    (Hstr : forall s, P (VStr s))
    (Harr : forall items, Forall P items -> P (VArr items))
    (Hobj : forall members, Forall (fun m => P (snd m)) members -> P (VObj members))
    (v : value) {struct v} : P v :=
  let rec := value_nested_ind P Hundefined Hnull Hbool Hnum Hstr Harr Hobj in
  match v with
  | VUndefined => Hundefined
  | VNull => Hnull
  | VBool b => Hbool b
  | VNum n => Hnum n
  | VStr s => Hstr s
  | VArr items =>
      Harr items
        ((fix all (l : list value) : Forall P l :=
            match l with
            | [] => Forall_nil P
            | x :: r => Forall_cons x (rec x) (all r)
            end) items)
  | VObj members =>
      Hobj members
        ((fix all (l : list (jsstring * value)) : Forall (fun m => P (snd m)) l :=
            match l with
            | [] => Forall_nil _
            | m :: r => Forall_cons m (rec (snd m)) (all r)
            end) members)
  end.

(** ** JSON.parse

    One pass over the code units, with the open arrays and objects on a
    stack.  *)

(** An open array with its elements so far, or an open object with its
    members so far and the name waiting for its value (newest first). *)
Inductive frame : Type :=
| FArr (done : list value)
| FObj (done : list (jsstring * value)) (key : jsstring).

(** What a string being read is for. *)
Inductive purpose : Type :=
| ForValue (st : list frame)
| ForKey (done : list (jsstring * value)) (st : list frame).

(** Where the reader is in a number: an optional minus, then 0 or a
    non-zero digit and digits, then optionally a point and digits, then
    optionally e or E, a sign and digits. *)
Inductive num_phase : Type :=
| NMinus | NZero | NInt | NDot | NFrac | NE | NESign | NExp.

Record num_acc : Type := mkAcc {
  acc_neg : bool;      (* a leading minus *)
  acc_mant : N;        (* integer and fraction digits read *)
  acc_frac : Z;        (* how many of them are fraction digits *)
  acc_eneg : bool;     (* a minus in the exponent *)
  acc_exp : Z          (* exponent digits read *)
}.

Inductive pstate : Type :=
| SValue (st : list frame)                       (* a value must start *)
| SValueOrEnd (st : list frame)                  (* just after '[' *)
| SKeyOrEnd (st : list frame)                    (* just after '{' *)
| SKey (done : list (jsstring * value)) (st : list frame)   (* after ',' in an object *)
| SColon (done : list (jsstring * value)) (key : jsstring) (st : list frame)
| SStr (p : purpose) (acc : jsstring)            (* in a string, newest unit first *)
| SEsc (p : purpose) (acc : jsstring)            (* after a backslash *)
| SHex (p : purpose) (acc : jsstring) (todo : nat) (code : N)  (* in \uXXXX *)
| SLit (rest : jsstring) (v : value) (st : list frame)     (* in true, false, null *)
| SNum (ph : num_phase) (a : num_acc) (st : list frame)
| SAfter (v : value) (st : list frame).          (* a value has ended *)

(** JSON white space: tab, line feed, carriage return, space. *)
Definition json_ws (c : N) : bool :=
  ((c =? 9) || (c =? 10) || (c =? 13) || (c =? 32))%N.

Definition is_digit (c : N) : bool := ((48 <=? c) && (c <=? 57))%N.

Definition hex_digit (c : N) : option N :=
  if is_digit c then Some (c - 48)%N
  else if ((65 <=? c) && (c <=? 70))%N then Some (c - 55)%N
  else if ((97 <=? c) && (c <=? 102))%N then Some (c - 87)%N
  else None.

Definition number_of_acc (a : num_acc) : number :=
  mkNumber (acc_neg a) (acc_mant a)
           ((if acc_eneg a then - acc_exp a else acc_exp a) - acc_frac a).

Definition push_digit (frac : bool) (a : num_acc) (c : N) : num_acc :=
  mkAcc (acc_neg a) (acc_mant a * 10 + (c - 48))%N
        (if frac then acc_frac a + 1 else acc_frac a) (acc_eneg a) (acc_exp a).

Definition push_exp_digit (a : num_acc) (c : N) : num_acc :=
  mkAcc (acc_neg a) (acc_mant a) (acc_frac a) (acc_eneg a)
        (acc_exp a * 10 + Z.of_N (c - 48)).

Definition set_exp_sign (a : num_acc) (neg : bool) : num_acc :=
  mkAcc (acc_neg a) (acc_mant a) (acc_frac a) neg (acc_exp a).

(** The code unit [c] after a complete value [v]. *)
Definition after_value (v : value) (st : list frame) (c : N) : option pstate :=
  if json_ws c then Some (SAfter v st)
  else
    match st with
    | [] => None
    | FArr done :: st' =>
        if (c =? 44)%N then Some (SValue (FArr (v :: done) :: st'))
        else if (c =? 93)%N then Some (SAfter (VArr (rev (v :: done))) st')
        else None
    | FObj done key :: st' =>
        if (c =? 44)%N then Some (SKey ((key, v) :: done) st')
        else if (c =? 125)%N then Some (SAfter (VObj (rev ((key, v) :: done))) st')
        else None
    end.

(** The first code unit [c] of a value ([c] is not white space). *)
Definition start_value (st : list frame) (c : N) : option pstate :=
  if (c =? 123)%N then Some (SKeyOrEnd st)
  else if (c =? 91)%N then Some (SValueOrEnd st)
  else if (c =? 34)%N then Some (SStr (ForValue st) [])
  else if (c =? 45)%N then Some (SNum NMinus (mkAcc true 0 0 false 0) st)
  else if (c =? 48)%N then Some (SNum NZero (mkAcc false 0 0 false 0) st)
  else if is_digit c then Some (SNum NInt (push_digit false (mkAcc false 0 0 false 0) c) st)
  else if (c =? 116)%N then Some (SLit (str "rue") (VBool true) st)
  else if (c =? 102)%N then Some (SLit (str "alse") (VBool false) st)
  else if (c =? 110)%N then Some (SLit (str "ull") VNull st)
  else None.

Definition end_string (p : purpose) (s : jsstring) : pstate :=
  match p with
  | ForValue st => SAfter (VStr s) st
  | ForKey done st => SColon done s st
  end.

Definition is_e (c : N) : bool := ((c =? 101) || (c =? 69))%N.

Definition step_number (ph : num_phase) (a : num_acc) (st : list frame) (c : N)
  : option pstate :=
  let finish := after_value (VNum (number_of_acc a)) st c in
  match ph with
  | NMinus =>
      if (c =? 48)%N then Some (SNum NZero a st)
      else if is_digit c then Some (SNum NInt (push_digit false a c) st)
      else None
  | NZero =>
      if (c =? 46)%N then Some (SNum NDot a st)
      else if is_e c then Some (SNum NE a st)
      else if is_digit c then None
      else finish
  | NInt =>
      if is_digit c then Some (SNum NInt (push_digit false a c) st)
      else if (c =? 46)%N then Some (SNum NDot a st)
      else if is_e c then Some (SNum NE a st)
      else finish
  | NDot =>
      if is_digit c then Some (SNum NFrac (push_digit true a c) st) else None
  | NFrac =>
      if is_digit c then Some (SNum NFrac (push_digit true a c) st)
      else if is_e c then Some (SNum NE a st)
      else finish
  | NE =>
      if (c =? 43)%N then Some (SNum NESign a st)
      else if (c =? 45)%N then Some (SNum NESign (set_exp_sign a true) st)
      else if is_digit c then Some (SNum NExp (push_exp_digit a c) st)
      else None
  | NESign =>
      if is_digit c then Some (SNum NExp (push_exp_digit a c) st) else None
  | NExp =>
      if is_digit c then Some (SNum NExp (push_exp_digit a c) st) else finish
  end.

Definition unescape (c : N) : option N :=
  if (c =? 34)%N then Some 34%N
  else if (c =? 92)%N then Some 92%N
  else if (c =? 47)%N then Some 47%N
  else if (c =? 98)%N then Some 8%N
  else if (c =? 102)%N then Some 12%N
  else if (c =? 110)%N then Some 10%N
  else if (c =? 114)%N then Some 13%N
  else if (c =? 116)%N then Some 9%N
  else None.

(** One code unit; [None] is the SyntaxError. *)
Definition step (s : pstate) (c : N) : option pstate :=
  match s with
  | SValue st => if json_ws c then Some s else start_value st c
  | SValueOrEnd st =>
      if json_ws c then Some s
      else if (c =? 93)%N then Some (SAfter (VArr []) st)
      else start_value (FArr [] :: st) c
  | SKeyOrEnd st =>
      if json_ws c then Some s
      else if (c =? 125)%N then Some (SAfter (VObj []) st)
      else if (c =? 34)%N then Some (SStr (ForKey [] st) [])
      else None
  | SKey done st =>
      if json_ws c then Some s
      else if (c =? 34)%N then Some (SStr (ForKey done st) [])
      else None
  | SColon done key st =>
      if json_ws c then Some s
      else if (c =? 58)%N then Some (SValue (FObj done key :: st))
      else None
  | SStr p acc =>
      if (c =? 34)%N then Some (end_string p (rev acc))
      else if (c =? 92)%N then Some (SEsc p acc)
      else if (c <? 32)%N then None
      else Some (SStr p (c :: acc))
  | SEsc p acc =>
      if (c =? 117)%N then Some (SHex p acc 4 0%N)
      else match unescape c with
           | Some u => Some (SStr p (u :: acc))
           | None => None
           end
  | SHex p acc todo code =>
      match hex_digit c with
      | Some d =>
          let code' := (code * 16 + d)%N in
          match todo with
          | S (S k) => Some (SHex p acc (S k) code')
          | _ => Some (SStr p (code' :: acc))
          end
      | None => None
      end
  | SLit rest v st =>
      match rest with
      | [] => None
      | x :: [] => if (c =? x)%N then Some (SAfter v st) else None
      | x :: more => if (c =? x)%N then Some (SLit more v st) else None
      end
  | SNum ph a st => step_number ph a st c
  | SAfter v st => after_value v st c
  end.

Fixpoint steps (s : pstate) (text : jsstring) : option pstate :=
  match text with
  | [] => Some s
  | c :: rest =>
      match step s c with
      | Some s' => steps s' rest
      | None => None
      end
  end.

(** The end of the text: a value has ended and nothing is open. *)
Definition at_end (s : pstate) : option value :=
  match s with
  | SAfter v [] => Some v
  | SNum (NZero | NInt | NFrac | NExp) a [] => Some (VNum (number_of_acc a))
  | _ => None
  end.

(** The value a state holds, if any, is not [undefined]. *)
Definition defined_state (s : pstate) : Prop :=
  match s with
  | SAfter v _ => v <> VUndefined
  | SLit _ v _ => v <> VUndefined
  | _ => True
  end.

(** [JSON.parse(text)]; [None] is the SyntaxError it throws. *)
Definition JSON_parse (text : jsstring) : option value :=
  match steps (SValue []) text with
  | Some s => at_end s
  | None => None
  end.

(** ** Responses and control flow *)

Record response : Type := mkResponse { status : Z; body : value }.

(** [res.json(v)]: status 200 and [JSON.stringify(v)], the body being the
    value the client reads. *)
Definition ok (v : value) : response := mkResponse 200 (sent v).

(** [res.status(code).json({ error: message })] *)
Definition error_response (code : Z) (message : string) : response :=
  mkResponse code (VObj [(str "error", VStr (str message))]).

Definition invalid_payload : response := error_response 400 "Invalid payload: text required".
Definition text_too_short : response := error_response 400 "Text too short".
Definition text_too_long : response := error_response 400 "Text too long".
Definition too_many_requests : response :=
  error_response 429 "Too many requests, please try again later.".
Definition internal_server_error : response := error_response 500 "Internal server error".

(** Where a statement of the handler leaves it: on to the next statement
    with a value, out through a [return res...], or out through an
    exception on its way to the [catch] of line 145. *)
Inductive flow (A : Type) : Type :=
| Go (a : A)
| Reply (r : response)
| Thrown.

Arguments Go {A} a.
Arguments Reply {A} r.
Arguments Thrown {A}.

Definition bind {A B : Type} (m : flow A) (k : A -> flow B) : flow B :=
  match m with
  | Go a => k a
  | Reply r => Reply r
  | Thrown => Thrown
  end.

Notation "x <- m ;; k" := (bind m (fun x => k))
  (at level 61, m at next level, right associativity).

(** A built-in that throws. *)
Definition attempt {A : Type} (o : option A) : flow A :=
  match o with
  | Some a => Go a
  | None => Thrown
  end.

(** [items.map(f)], stopping at the first exception. *)
Fixpoint map_flow {A B : Type} (f : A -> flow B) (items : list A) : flow (list B) :=
  match items with
  | [] => Go []
  | x :: rest => y <- f x ;; ys <- map_flow f rest ;; Go (y :: ys)
  end.

(** No statement after validation leaves through a [return res...]. *)
Definition no_reply {A : Type} (m : flow A) : Prop := forall r, m <> Reply r.

(** ** Validation (lines 67-76) *)

Inductive language : Type := en | es.

(** [(language === "es") ? "es" : "en"] *)
Definition lang_of (v : value) : language :=
  match v with
  | VStr s => if jsstring_eqb s (str "es") then es else en
  | _ => en
  end.

(** [typeof v === "string"], with the string. *)
Definition as_string (v : value) : option jsstring :=
  match v with
  | VStr s => Some s
  | _ => None
  end.

(** Lines 67-73: the language and the trimmed text of an accepted body. *)
Definition validate (req_body : value) : flow (language * jsstring) :=
  text <- attempt (Get req_body (str "text")) ;;
  language <- attempt (Get req_body (str "language")) ;;
  match (if ToBoolean text then as_string text else None) with
  | None => Reply invalid_payload
  | Some s =>
      let lang := lang_of language in
      let trimmed := trim s in
      if jslength trimmed <? 50 then Reply text_too_short
      else if jslength trimmed >? 20000 then Reply text_too_long
      else Go (lang, trimmed)
  end.

(** ** The reply of the completion service (lines 108-122) *)

(** What [callOpenAIChat] comes back with: an exception (transport error,
    timeout, error status), or a reply whose
    [choices?.[0]?.message?.content] is a string or is not there. *)
Inductive completion : Type :=
| Failed
| Answered (content : option jsstring).

Fixpoint from_first (c : N) (s : jsstring) : option jsstring :=
  match s with
  | [] => None
  | x :: r => if (x =? c)%N then Some s else from_first c r
  end.

Definition upto_last (c : N) (s : jsstring) : option jsstring :=
  option_map (@rev N) (from_first c (rev s)).

(** [m[0]] of [textResp.match(/\{[\s\S]*\}/)]: from the first opening
    brace to the last closing brace after it; [None] when [m] is [null]. *)
Definition match_braces (s : jsstring) : option jsstring :=
  match from_first 123 s with
  | Some t => upto_last 125 t
  | None => None
  end.

(** Lines 114-122; [None] is an exception thrown there. *)
Definition parse_reply (textResp : jsstring) : option value :=
  match JSON_parse textResp with
  | Some parsed => Some parsed
  | None =>
      match match_braces textResp with
      | Some m => JSON_parse m
      | None => None
      end
  end.

(** ** Normalisation (lines 124-143) *)

Definition has_member (k : jsstring) (members : list (jsstring * value)) : bool :=
  existsb (fun m => jsstring_eqb k (fst m)) members.

Definition comma : jsstring := [44%N].

(** [items.join(",")], with [render] for [String] of an element: [null]
    and [undefined] are joined as the empty string. *)
Fixpoint Array_join (render : value -> option jsstring) (items : list value)
  : option jsstring :=
  match items with
  | [] => Some []
  | x :: rest =>
      let element :=
        match x with
        | VUndefined | VNull => Some []
        | _ => render x
        end in
      match element, rest with
      | None, _ => None
      | Some s, [] => Some s
      | Some s, _ :: _ =>
          match Array_join render rest with
          | Some t => Some (s ++ comma ++ t)
          | None => None
          end
      end
  end.

(** ** Configuration (line 17) and the CORS check (lines 31-42) *)

(** [s.split(c)] for a separator of one code unit: the pieces between the
    separators, the empty ones too. *)
Fixpoint split_on (c : N) (s : jsstring) : list jsstring :=
  match s with
  | [] => [[]]
  | x :: r =>
      if (x =? c)%N then [] :: split_on c r
      else match split_on c r with
           | piece :: pieces => (x :: piece) :: pieces
           | [] => [[x]]
           end
  end.

(** [Boolean(s)] of a string. *)
Definition nonempty (s : jsstring) : bool :=
  match s with
  | [] => false
  | _ => true
  end.

(** Line 17: [(env || "").split(",").map(s => s.trim()).filter(Boolean)],
    [env] being [process.env.ALLOWED_ORIGINS], [None] when it is unset. *)
Definition ALLOWED_ORIGINS (env : option jsstring) : list jsstring :=
  filter nonempty
    (map trim (split_on 44 (match env with Some s => s | None => [] end))).

(** [list.includes(o)] *)
Definition includes (allowed : list jsstring) (o : jsstring) : bool :=
  existsb (jsstring_eqb o) allowed.

(** Lines 32-42: does the CORS middleware pass a request with this
    [Origin] header ([None] when it has none) on to the routes?  With no
    allowed origin configured it is [cors()], which passes every request;
    otherwise the callback of line 36 decides, and a request it refuses
    fails with the error "CORS not allowed". *)
Definition cors_allows (allowed : list jsstring) (origin : option jsstring) : bool :=
  match allowed with
  | [] => true
  | _ :: _ =>
      match origin with
      | None => true
      | Some [] => true
      | Some o => includes allowed o
      end
  end.

(** [pieces.join(",")], to write a configuration. *)
Fixpoint join_commas (pieces : list jsstring) : jsstring :=
  match pieces with
  | [] => []
  | [p] => p
  | p :: rest => p ++ 44%N :: join_commas rest
  end.

(** No white space at either end, not empty, and no comma: an origin as
    the configuration can list it. *)
Definition listable (o : jsstring) : Prop :=
  o <> [] /\ trim o = o /\ ~ In 44%N o.

Definition blank (s : jsstring) : bool := forallb is_space s.

(** ** The prompt (lines 79-106) and the call (lines 45-58) *)

Record message : Type := mkMessage { role : jsstring; content : jsstring }.

(** The lines of a template literal, a line feed between them. *)
Fixpoint lines (ls : list jsstring) : jsstring :=
  match ls with
  | [] => []
  | [l] => l
  | l :: rest => l ++ 10%N :: lines rest
  end.

(** Line 79. *)
Definition system : message :=
  mkMessage (str "system")
    (str "You are a helpful assistant that analyzes Terms & Conditions and returns a concise structured JSON result. Respond with JSON only.").

(** [lang === 'es' ? 'Spanish' : 'English'] *)
Definition language_name (lang : language) : jsstring :=
  match lang with
  | es => str "Spanish"
  | en => str "English"
  end.

(** [lang === 'es' ? 'en Español' : 'in English'], the n with tilde being
    U+00F1. *)
Definition in_language (lang : language) : jsstring :=
  match lang with
  | es => str "en Espa" ++ 241%N :: str "ol"
  | en => str "in English"
  end.

(** Lines 80-106; double quotes are written as apostrophes in the lines
    read by [json_text]. *)
Definition user (lang : language) (safe : jsstring) : message :=
  mkMessage (str "user")
    (lines
       [ str "Language: " ++ language_name lang ++ str ".";
         [];
         str "Task: Read the provided text (Terms & Conditions / Privacy Policy) and return JSON with this exact structure:";
         [];
         str "{";
         json_text "  'summary': '<one paragraph summary, " ++ in_language lang
           ++ json_text ">',";
         json_text "  'bullets': [";
         json_text "    {'type':'pro','text':'...'},";
         json_text "    {'type':'con','text':'...'},";
         json_text "    {'type':'warning','text':'...'}";
         str "  ],";
         json_text "  'rating':'Secure | Risky | Not secure'";
         str "}";
         [];
         str "Rules:";
         str "- Return valid JSON ONLY (no extra commentary).";
         str "- Provide a short paragraph in 'summary'.";
         str "- Provide a few bullets (no fixed count) with type = 'pro' | 'con' | 'warning'.";
         json_text "- rating must be exactly one of: 'Secure', 'Risky', or 'Not secure'.";
         str "- Use " ++ language_name lang ++ str " for all outputs.";
         [];
         str "Text:";
         safe ]).

(** The [payload] of line 47, with the temperature as the literal 0.2. *)
Record payload : Type := mkPayload {
  model : jsstring;
  messages : list message;
  max_tokens : Z;
  temperature : number
}.

(** What [axios.post] is given at line 53. *)
Record post_request : Type := mkPost {
  url : jsstring;
  data : payload;
  content_type : jsstring;
  authorization : jsstring;
  timeout : Z
}.

(** Lines 45-58 as the handler calls them at line 108, with [OPENAI_KEY]
    of line 16 and [post] for [axios.post] followed by the reading of the
    reply at line 110. *)
Definition callOpenAIChat_with (OPENAI_KEY : jsstring)
    (post : post_request -> completion) : language -> jsstring -> completion :=
  fun lang safe =>
    post (mkPost (str "https://api.openai.com/v1/chat/completions")
            (mkPayload (str "gpt-4o-mini") [system; user lang safe] 500
               (mkNumber false 2 (-1)))
            (str "application/json")
            (str "Bearer " ++ OPENAI_KEY)
            120000).


Definition is_object (v : value) : bool :=
  match v with
  | VObj _ => true
  | _ => false
  end.

(** ** The outermost value of a text being parsed *)

(** The outermost open frame is an object. *)
Fixpoint bottom_is_object (st : list frame) : bool :=
  match st with
  | [] => false
  | f :: rest =>
      match rest with
      | [] => match f with FObj _ _ => true | FArr _ => false end
      | _ :: _ => bottom_is_object rest
      end
  end.

(** Nothing is open, or the outermost open frame is an object. *)
Definition inside_object (st : list frame) : bool :=
  match st with
  | [] => true
  | _ :: _ => bottom_is_object st
  end.

(** The value being read, or just read, is an object or lies in one. *)
Definition rooted (s : pstate) : Prop :=
  match s with
  | SValue st | SValueOrEnd st | SLit _ _ st | SNum _ _ st =>
      bottom_is_object st = true
  | SStr p _ | SEsc p _ | SHex p _ _ _ =>
      match p with
      | ForValue st => bottom_is_object st = true
      | ForKey _ st => inside_object st = true
      end
  | SKeyOrEnd st | SKey _ st | SColon _ _ st => inside_object st = true
  | SAfter v st =>
      match st with
      | [] => is_object v = true
      | _ :: _ => bottom_is_object st = true
      end
  end.

(** ** Further properties of strings, read by the theorems below *)

(** Every white space is a space (U+0020) and no two are adjacent;
    [after_space] says the code unit before was one. *)
Fixpoint single_spaced (after_space : bool) (s : jsstring) : bool :=
  match s with
  | [] => true
  | c :: r =>
      if is_space c
      then (c =? 32)%N && negb after_space && single_spaced true r
      else single_spaced false r
  end.

(** The eight characters [escape] replaces. *)
Definition escaped_characters : list N := [38; 34; 39; 60; 62; 47; 92; 96]%N.

(** The entity [escape] writes for a character, or the character. *)
Definition entity (c : N) : jsstring :=
  if (c =? 38)%N then str "&amp;"
  else if (c =? 34)%N then str "&quot;"
  else if (c =? 39)%N then str "&#x27;"
  else if (c =? 60)%N then str "&lt;"
  else if (c =? 62)%N then str "&gt;"
  else if (c =? 47)%N then str "&#x2F;"
  else if (c =? 92)%N then str "&#x5C;"
  else if (c =? 96)%N then str "&#96;"
  else [c].

(** [s.startsWith(p)] *)
Fixpoint starts_with (p s : jsstring) : bool :=
  match p, s with
  | [], _ => true
  | x :: p', y :: s' => (x =? y)%N && starts_with p' s'
  | _ :: _, [] => false
  end.

(** The eight entities [escape] writes. *)
Definition entities : list jsstring := map entity escaped_characters.

(** The text starts with an entity. *)
Definition heads_entity (s : jsstring) : bool :=
  existsb (fun e => starts_with e s) entities.

(** The text is the beginning of an entity and nothing more: an entity
    cut short by the end of the text. *)
Definition heads_cut_entity (s : jsstring) : bool :=
  existsb (fun e => starts_with s e) entities.

(** Every '&' of the text is the first character of an entity; with
    [cut], the last entity may be cut short by the end of the text. *)
Fixpoint ampersands_head_entities (cut : bool) (s : jsstring) : bool :=
  match s with
  | [] => true
  | c :: r =>
      (if (c =? 38)%N then heads_entity s || cut && heads_cut_entity s else true)
      && ampersands_head_entities cut r
  end.

(** [s.includes(needle)] *)
Fixpoint contains (needle s : jsstring) : bool :=
  if starts_with needle s then true
  else match s with
       | [] => false
       | _ :: r => contains needle r
       end.

(** The language a posted request asks the summary in, read off its user
    message: the first line, the summary slot of the schema and the last
    rule all name it. *)
Definition asked_language (rq : post_request) : option language :=
  match messages (data rq) with
  | [_; m] =>
      if starts_with (str "Language: Spanish.") (content m)
      then (if contains (str "<one paragraph summary, en Espa" ++ 241%N :: str "ol>") (content m)
            then (if contains (str "- Use Spanish for all outputs.") (content m)
                  then Some es else None)
            else None)
      else if starts_with (str "Language: English.") (content m)
      then (if contains (str "<one paragraph summary, in English>") (content m)
            then (if contains (str "- Use English for all outputs.") (content m)
                  then Some en else None)
            else None)
      else None
  | _ => None
  end.

(** The [language] of the body is the string "es". *)
Definition wants_spanish (req_body : value) : bool :=
  match Get req_body (str "language") with
  | Some (VStr s) => jsstring_eqb s (str "es")
  | _ => false
  end.

(** Spanish is asked when wanted, and English when not. *)
Definition language_matches (asked : option language) (spanish : bool) : bool :=
  match asked with
  | Some es => spanish
  | Some en => negb spanish
  | None => false
  end.

Ltac entity_cases c :=
  unfold entity;
  destruct (N.eqb_spec c 38); [|destruct (N.eqb_spec c 34);
  [|destruct (N.eqb_spec c 39); [|destruct (N.eqb_spec c 60);
  [|destruct (N.eqb_spec c 62); [|destruct (N.eqb_spec c 47);
  [|destruct (N.eqb_spec c 92); [|destruct (N.eqb_spec c 96)]]]]]]].

Section Handler.

(** [Number::toString] of the double a literal denotes: floating-point
    formatting, which this development leaves open. *)
Variable Number_toString : number -> jsstring.

(** [String(v)]; [None] is the TypeError of an object whose own
    [toString] member hides [Object.prototype.toString] (no member is
    callable).  An array joins its elements with commas, [null] as the
    empty string. *)
Fixpoint ToString (v : value) : option jsstring :=
  match v with
  | VUndefined => Some (str "undefined")
  | VNull => Some (str "null")
  | VBool b => Some (str (if b then "true" else "false"))
  | VNum n => Some (Number_toString n)
  | VStr s => Some s
  | VArr items => Array_join ToString items
  | VObj members =>
      if has_member (str "toString") members then None
      else Some (str "[object Object]")
  end.

(** [b && b.k] *)
Definition and_get (b : value) (k : jsstring) : option value :=
  if ToBoolean b then Get b k else Some b.

(** The callback of line 130. *)
Definition cleanBullet (b : value) : flow value :=
  has_type <- attempt (and_get b (str "type")) ;;
  t <- (if ToBoolean has_type
        then ty <- attempt (Get b (str "type")) ;;
             s <- attempt (ToString ty) ;;
             Go (toLowerCase s)
        else Go (str "con")) ;;
  has_text <- attempt (and_get b (str "text")) ;;
  txt <- (if ToBoolean has_text
          then tx <- attempt (Get b (str "text")) ;; attempt (ToString tx)
          else Go []) ;;
  Go (VObj [(str "type",
             VStr (if jsstring_eqb t (str "pro") then str "pro"
                   else if jsstring_eqb t (str "warning") then str "warning"
                   else str "con"));
            (str "text", VStr txt)]).

(** Lines 125-143: the body of the 200 response for [parsed]. *)
Definition normalize (parsed : value) : flow value :=
  s <- attempt (Get parsed (str "summary")) ;;
  let summary := or_else s (VStr []) in
  b <- attempt (Get parsed (str "bullets")) ;;
  let bullets := match b with VArr items => items | _ => [] end in
  r <- attempt (Get parsed (str "rating")) ;;
  let rating := or_else r (VStr (str "Risky")) in
  cleanedBullets <- map_flow cleanBullet bullets ;;
  Go (VObj [(str "summary", summary);
            (str "bullets", VArr cleanedBullets);
            (str "rating", rating)]).

(** Lines 108-143, from the reply of the completion service on. *)
Definition respond (reply : completion) : flow response :=
  match reply with
  | Failed => Thrown
  | Answered None => Thrown
  | Answered (Some []) => Thrown
  | Answered (Some textResp) =>
      parsed <- attempt (parse_reply textResp) ;;
      result <- normalize parsed ;;
      Go (ok result)
  end.

(** The body of the [try] of line 66. *)
Definition summarize_try (req_body : value)
    (callOpenAIChat : language -> jsstring -> completion) : flow response :=
  accepted <- validate req_body ;;
  let safe := safeText (snd accepted) in
  respond (callOpenAIChat (fst accepted) safe).

(** [POST /summarize]: the handler of lines 65-149. *)
Definition summarize (req_body : value)
    (callOpenAIChat : language -> jsstring -> completion) : response :=
  match summarize_try req_body callOpenAIChat with
  | Go r => r
  | Reply r => r
  | Thrown => internal_server_error
  end.

(** ** Admission: the rate limiter (lines 24-29) *)

(** [windowMs: 60 * 1000] and [max: 30] of line 25 and 26. *)
Definition windowMs : Z := 60 * 1000.
Definition max_hits : Z := 30.

(** The counter of one client: its requests in the running window, and
    the time (in milliseconds) at which the window ends. *)
Record window : Type := mkWindow { hits : Z; resetTime : Z }.

(** The counters, the newest entry of a client first. *)
Definition store : Type := list (jsstring * window).

Fixpoint find_window (who : jsstring) (st : store) : option window :=
  match st with
  | [] => None
  | (k, w) :: rest => if jsstring_eqb who k then Some w else find_window who rest
  end.

(** Modelled from the spec: the middleware [rateLimit(...)] builds is the
    express-rate-limit package, not under src/.  Section 4.1: a 60-second
    window per client identity, at most 30 requests in it, the 31st and
    later ones refused until the window rolls over.  A request of [who] at
    time [t] is counted in the running window of [who], or opens one if
    none is running. *)
Definition counted (st : store) (who : jsstring) (t : Z) : window :=
  match find_window who st with
  | Some w =>
      if t <? resetTime w then mkWindow (hits w + 1) (resetTime w)
      else mkWindow 1 (t + windowMs)
  | None => mkWindow 1 (t + windowMs)
  end.

(** The limiter: the request is counted, and passes when the count of its
    window is at most [max_hits]. *)
Definition limiter (st : store) (who : jsstring) (t : Z) : store * bool :=
  let w := counted st who t in
  ((who, w) :: st, hits w <=? max_hits).

(** ** The server *)

Inductive route : Type :=
| GetRoot
| PostSummarize (req_body : value)
    (callOpenAIChat : language -> jsstring -> completion).

(** A request that reached [app.use(limiter)] with its body parsed, and
    that the CORS check of lines 32-42 lets through: its source address,
    the time it arrives at (in milliseconds), and where it goes. *)
Record request : Type := mkRequest { ip : jsstring; at_ms : Z; target : route }.

(** Line 61 and line 65. *)
Definition handle (r : route) : response :=
  match r with
  | GetRoot => ok (VObj [(str "status", VStr (str "ok"))])
  | PostSummarize req_body callOpenAIChat => summarize req_body callOpenAIChat
  end.

(** The limiter, then the route; a refused request gets the [message] of
    line 27 with status 429. *)
Definition serve (st : store) (r : request) : store * response :=
  let (st', pass) := limiter st (ip r) (at_ms r) in
  (st', if pass then handle (target r) else too_many_requests).

(** The requests in order of arrival, each with its response, and the
    counters they leave. *)
Fixpoint serve_all (st : store) (rs : list request) : store * list (request * response) :=
  match rs with
  | [] => (st, [])
  | r :: rest =>
      let (st', out) := serve st r in
      let (st'', outs) := serve_all st' rest in
      (st'', (r, out) :: outs)
  end.

Definition from_client (who : jsstring) (r : request) : bool := jsstring_eqb (ip r) who.

(** The responses to the requests of [who], in order. *)
Definition responses_to (who : jsstring) (log : list (request * response)) : list response :=
  map snd (filter (fun e => from_client who (fst e)) log).

(** The first [n] requests of [rs] pass to their route, the others are
    refused: what the specification says of the requests of one client in
    one window, with [n = 30]. *)
Fixpoint first_pass (n : nat) (rs : list request) : list response :=
  match rs with
  | [] => []
  | r :: rest =>
      match n with
      | O => too_many_requests :: first_pass O rest
      | S m => handle (target r) :: first_pass m rest
      end
  end.

(** ** Properties of responses, and the inputs of the examples *)

(** The member [k] of a response body. *)
Definition field (k : string) (r : response) : option value :=
  match body r with
  | VObj members => own_property (str k) members
  | _ => None
  end.

(** One of the three ratings of the prompt (line 101). *)
Definition is_rating (v : value) : bool :=
  match v with
  | VStr s =>
      jsstring_eqb s (str "Secure") || jsstring_eqb s (str "Risky")
      || jsstring_eqb s (str "Not secure")
  | _ => false
  end.

(** A bullet of the output schema: exactly a [type] among pro, con and
    warning, and a [text] that is a string. *)
Definition is_bullet (v : value) : bool :=
  match v with
  | VObj [(k1, VStr t); (k2, VStr _)] =>
      jsstring_eqb k1 (str "type") && jsstring_eqb k2 (str "text")
      && (jsstring_eqb t (str "pro") || jsstring_eqb t (str "con")
          || jsstring_eqb t (str "warning"))
  | _ => false
  end.

(** The output schema: [summary] a string, [bullets] an array of bullets,
    [rating] one of the three ratings. *)
Definition well_formed (v : value) : bool :=
  match v with
  | VObj [(k1, VStr _); (k2, VArr bs); (k3, r)] =>
      jsstring_eqb k1 (str "summary") && jsstring_eqb k2 (str "bullets")
      && jsstring_eqb k3 (str "rating") && forallb is_bullet bs && is_rating r
  | _ => false
  end.

(** No object with a [toString] member of its own anywhere in [v]:
    [String(v)] does not throw. *)
Fixpoint printable (v : value) : bool :=
  match v with
  | VArr items => forallb printable items
  | VObj members => negb (has_member (str "toString") members)
  | _ => true
  end.

(** The bullets [parsed] carries (line 126). *)
Definition bullets_of (parsed : value) : list value :=
  match Get parsed (str "bullets") with
  | Some (VArr items) => items
  | _ => []
  end.

(** The member [k] of a bullet, as line 131 and 132 read it. *)
Definition member (k : string) (b : value) : value :=
  match and_get b (str k) with
  | Some v => v
  | None => VUndefined
  end.

Definition a_request (text : jsstring) : value := VObj [(str "text", VStr text)].

(** A completion service that answers [content] whatever it is asked. *)
Definition answering (content : jsstring) : language -> jsstring -> completion :=
  fun _ _ => Answered (Some content).

(** Fifty letters: a text that is accepted. *)
Definition fifty : jsstring := repeat 97%N 50.

(** The bullet the specification describes for the element [b]: [type]
    is pro or warning when the type of [b], lower-cased, is exactly that,
    and con otherwise; [text] is the text of [b] as a string, empty when
    [b] has none. *)
Definition described_type (b : value) : jsstring :=
  let ty := member "type" b in
  match (if ToBoolean ty then ToString ty else None) with
  | Some s =>
      if jsstring_eqb (toLowerCase s) (str "pro") then str "pro"
      else if jsstring_eqb (toLowerCase s) (str "warning") then str "warning"
      else str "con"
  | None => str "con"
  end.

Definition described_text (b : value) : jsstring :=
  let tx := member "text" b in
  match (if ToBoolean tx then ToString tx else None) with
  | Some s => s
  | None => []
  end.

Definition described_bullet (b : value) : value :=
  VObj [(str "type", VStr (described_type b)); (str "text", VStr (described_text b))].

(** [String] of the type and of the text of [b] does not throw. *)
Definition printable_bullet (b : value) : bool :=
  printable (member "type" b) && printable (member "text" b).

(** The parsed reply the handler normalises, when it gets that far. *)
Definition parsed_of (req_body : value)
    (callOpenAIChat : language -> jsstring -> completion) : option value :=
  match validate req_body with
  | Go (lang, trimmed) =>
      match callOpenAIChat lang (safeText trimmed) with
      | Answered (Some (c :: rest)) => parse_reply (c :: rest)
      | _ => None
      end
  | _ => None
  end.

(** [n] letters, and [n] spaces. *)
Definition letters (n : Z) : jsstring := repeat 97%N (Z.to_nat n).
Definition spaces (n : Z) : jsstring := repeat 32%N (Z.to_nat n).

(** What the handler answers when the parsed reply has no member it
    knows. *)
Definition default_result : value :=
  VObj [(str "summary", VStr []); (str "bullets", VArr []);
        (str "rating", VStr (str "Risky"))].

(** The reply of the parser-recovery example of the specification: a
    sentence, a line feed, and an object. *)
Definition recovered_text : jsstring :=
  json_text "{'summary':'x','bullets':[],'rating':'Secure'}".

Definition wrapped_reply : jsstring :=
  str "Sure, here you go:" ++ [10%N] ++ recovered_text.

Definition recovered_result : value :=
  VObj [(str "summary", VStr (str "x")); (str "bullets", VArr []);
        (str "rating", VStr (str "Secure"))].

(** A reply with a rating that is none of the three. *)
Definition banana_reply : jsstring := json_text "{'rating':'Banana'}".

(** Replies whose parse is [null], an object with a numeric summary, and
    an object with a bullet whose type has a [toString] member. *)
Definition null_reply : jsstring := json_text "null".
Definition numeric_summary_reply : jsstring := json_text "{'summary':7}".
Definition hidden_toString_reply : jsstring :=
  json_text "{'bullets':[{'type':{'toString':1}}]}".

Definition seven : value := VNum (mkNumber false 7 0).

(** A reply with bullets of every kind. *)
Definition bullets_reply : jsstring :=
  json_text "{'bullets':[{'type':'PRO','text':'a'},{'type':'Warning'},null,{'type':'pros','text':'b'}]}".

Definition bullet (type text : string) : value :=
  VObj [(str "type", VStr (str type)); (str "text", VStr (str text))].

(** A reply that is no JSON and has no brace. *)
Definition apology : jsstring := str "I am sorry, I cannot summarise this.".

(** One client, its first request of a window and thirty more within a
    second, and a request after the window. *)
Definition client : jsstring := str "203.0.113.7".
Definition ping (t : Z) : request := mkRequest client t GetRoot.
Definition thirty_more : list request := repeat (ping 1000) 30.
Definition pong : response := ok (VObj [(str "status", VStr (str "ok"))]).

(** The examples below carry no number, so they never ask for the text of
    one; they are closed with this rendering. *)
Definition no_digits : number -> jsstring := fun _ => [].

(** A request for a summary in Spanish, and a list of two origins. *)
Definition spanish_request : value :=
  VObj [(str "text", VStr fifty); (str "language", VStr (str "es"))].

Definition two_origins : list jsstring :=
  [str "https://a.example"; str "chrome-extension://abc"].

(** * Proofs *)

Arguments str : simpl never.

(** ** Strings and the sanitiser *)

Lemma jsstring_eqb_eq (a b : jsstring) : jsstring_eqb a b = true <-> a = b.
Proof.
  unfold jsstring_eqb. destruct (list_eq_dec N.eq_dec a b); split; congruence.
Qed.

Lemma jsstring_eqb_refl (a : jsstring) : jsstring_eqb a a = true.
Proof. now apply jsstring_eqb_eq. Qed.

Lemma jslength_nonneg (s : jsstring) : 0 <= jslength s.
Proof. unfold jslength. lia. Qed.

Lemma drop_spaces_length (s : jsstring) :
  (List.length (drop_spaces s) <= List.length s)%nat.
Proof.
  induction s as [|c r IH]; simpl; [lia|].
  destruct (is_space c); simpl; lia.
Qed.

Lemma trim_length (s : jsstring) : jslength (trim s) <= jslength s.
Proof.
  unfold jslength, trim. rewrite length_rev.
  pose proof (drop_spaces_length (rev (drop_spaces s))) as H1.
  pose proof (drop_spaces_length s) as H2.
  rewrite length_rev in H1. lia.
Qed.

Lemma drop_spaces_keeps (c : N) (s : jsstring) :
  is_space c = false -> drop_spaces (c :: s) = c :: s.
Proof. intros H. simpl. now rewrite H. Qed.

(** A text that neither starts nor ends with a space is its own trim. *)
Lemma trim_fixed (c d : N) (s : jsstring) :
  is_space c = false -> is_space d = false ->
  trim (c :: s ++ [d]) = c :: s ++ [d].
Proof.
  intros Hc Hd. unfold trim. rewrite (drop_spaces_keeps c) by exact Hc.
  assert (E : rev (c :: s ++ [d]) = d :: rev (c :: s)).
  { change (c :: s ++ [d]) with ((c :: s) ++ [d]).
    rewrite rev_app_distr. reflexivity. }
  rewrite E, (drop_spaces_keeps d) by exact Hd.
  rewrite <- E. apply rev_involutive.
Qed.

Lemma drop_spaces_repeat (n : nat) (s : jsstring) :
  drop_spaces (repeat 32%N n ++ s) = drop_spaces s.
Proof. induction n as [|n IH]; simpl; auto. Qed.

(** Spaces after a text that starts with no space are trimmed away. *)
Lemma trim_trailing_spaces (c : N) (s : jsstring) (n : nat) :
  is_space c = false ->
  trim ((c :: s) ++ repeat 32%N n) = trim (c :: s).
Proof.
  intros Hc. unfold trim.
  change ((c :: s) ++ repeat 32%N n) with (c :: (s ++ repeat 32%N n)).
  rewrite !(drop_spaces_keeps c) by exact Hc.
  change (c :: (s ++ repeat 32%N n)) with ((c :: s) ++ repeat 32%N n).
  rewrite rev_app_distr, rev_repeat, drop_spaces_repeat. reflexivity.
Qed.

Lemma replace_all_app (c : N) (by_ a b : jsstring) :
  replace_all c by_ (a ++ b) = replace_all c by_ a ++ replace_all c by_ b.
Proof. unfold replace_all. apply flat_map_app. Qed.

Lemma replace_all_removes (c : N) (by_ s : jsstring) :
  ~ In c by_ -> ~ In c (replace_all c by_ s).
Proof.
  intros Hby Hin. unfold replace_all in Hin.
  apply in_flat_map in Hin. destruct Hin as [x [_ Hx]].
  destruct (N.eqb x c) eqn:E.
  - contradiction.
  - destruct Hx as [Hx|[]]. apply N.eqb_neq in E. congruence.
Qed.

Lemma replace_all_adds_nothing (x c : N) (by_ s : jsstring) :
  ~ In x by_ -> ~ In x s -> ~ In x (replace_all c by_ s).
Proof.
  intros Hby Hs Hin. unfold replace_all in Hin.
  apply in_flat_map in Hin. destruct Hin as [y [Hy Hx]].
  destruct (N.eqb y c).
  - contradiction.
  - destruct Hx as [Hx|[]]. subst. contradiction.
Qed.

Ltac not_in_literal :=
  let H := fresh in
  intro H; vm_compute in H;
  repeat (destruct H as [H|H]; [discriminate H|]); exact H.

(** [escape] leaves no '<' and no '>'. *)
Lemma escape_no_lt (s : jsstring) : ~ In 60%N (escape s).
Proof.
  unfold escape.
  do 4 (apply replace_all_adds_nothing; [not_in_literal|]).
  apply replace_all_removes. not_in_literal.
Qed.

Lemma escape_no_gt (s : jsstring) : ~ In 62%N (escape s).
Proof.
  unfold escape.
  do 3 (apply replace_all_adds_nothing; [not_in_literal|]).
  apply replace_all_removes. not_in_literal.
Qed.

Lemma collapse_from_In (x : N) (s : jsstring) (in_run : bool) :
  In x (collapse_from in_run s) -> x = 32%N \/ In x s.
Proof.
  revert in_run. induction s as [|c r IH]; intros in_run H; simpl in *.
  - contradiction.
  - destruct (is_space c).
    + destruct in_run.
      * apply IH in H. tauto.
      * destruct H as [H|H]; [auto|]. apply IH in H. tauto.
    + destruct H as [H|H]; [auto|]. apply IH in H. tauto.
Qed.

Lemma firstn_In_inv (x : N) (n : nat) (s : jsstring) : In x (firstn n s) -> In x s.
Proof.
  intros H. rewrite <- (firstn_skipn n s). apply in_or_app. now left.
Qed.

Lemma safeText_In (x : N) (t : jsstring) :
  In x (safeText t) -> x = 32%N \/ In x (escape t).
Proof.
  unfold safeText, slice0, collapse_spaces. intros H.
  apply firstn_In_inv in H. now apply collapse_from_In in H.
Qed.

Lemma safeText_length (t : jsstring) : jslength (safeText t) <= 20000.
Proof.
  unfold safeText, slice0, jslength.
  pose proof (firstn_le_length (Z.to_nat 20000) (collapse_spaces (escape t))).
  lia.
Qed.

Lemma escape_letters (n : nat) : escape (repeat 97%N n) = repeat 97%N n.
Proof.
  induction n as [|n IH]; [reflexivity|].
  change (repeat 97%N (S n)) with ([97%N] ++ repeat 97%N n).
  unfold escape in *. rewrite !replace_all_app. rewrite IH. reflexivity.
Qed.

Lemma escape_app (a b : jsstring) : escape (a ++ b) = escape a ++ escape b.
Proof. unfold escape. now rewrite !replace_all_app. Qed.

Lemma escape_one (c : N) : escape [c] = entity c.
Proof.
  unfold escape, entity, replace_all. cbn [flat_map].
  destruct (c =? 38)%N; [reflexivity|]. cbn [flat_map app].
  destruct (c =? 34)%N; [reflexivity|]. cbn [flat_map app].
  destruct (c =? 39)%N; [reflexivity|]. cbn [flat_map app].
  destruct (c =? 60)%N; [reflexivity|]. cbn [flat_map app].
  destruct (c =? 62)%N; [reflexivity|]. cbn [flat_map app].
  destruct (c =? 47)%N; [reflexivity|]. cbn [flat_map app].
  destruct (c =? 92)%N; [reflexivity|]. cbn [flat_map app].
  destruct (c =? 96)%N; reflexivity.
Qed.

(** The eight replacements of [escape] amount to one pass that writes
    each character as its entity: the ampersand of an entity is never
    escaped again. *)
Lemma escape_flat_map (s : jsstring) : escape s = flat_map entity s.
Proof.
  induction s as [|c s IH]; [reflexivity|].
  change (c :: s) with ([c] ++ s).
  now rewrite escape_app, escape_one, IH.
Qed.

Lemma collapse_letters (n : nat) (s : jsstring) (in_run : bool) :
  (0 < n)%nat ->
  collapse_from in_run (repeat 97%N n ++ s) = repeat 97%N n ++ collapse_from false s.
Proof.
  intros Hn. revert in_run. induction n as [|n IH]; intros in_run; [lia|].
  destruct n as [|n].
  - simpl. reflexivity.
  - change (repeat 97%N (S (S n)) ++ s) with (97%N :: (repeat 97%N (S n) ++ s)).
    change (repeat 97%N (S (S n)) ++ collapse_from false s)
      with (97%N :: (repeat 97%N (S n) ++ collapse_from false s)).
    rewrite <- (IH ltac:(lia) false). reflexivity.
Qed.

(** ** The shape of the handler *)

Lemma no_reply_Go {A : Type} (a : A) : no_reply (Go a).
Proof. intros r H. discriminate H. Qed.

Lemma no_reply_Thrown {A : Type} : no_reply (@Thrown A).
Proof. intros r H. discriminate H. Qed.

Lemma no_reply_attempt {A : Type} (o : option A) : no_reply (attempt o).
Proof. destruct o; intros r H; discriminate H. Qed.

Lemma no_reply_bind {A B : Type} (m : flow A) (k : A -> flow B) :
  no_reply m -> (forall a, no_reply (k a)) -> no_reply (bind m k).
Proof.
  intros Hm Hk r. destruct m as [a|r'|]; simpl.
  - apply Hk.
  - intros _. now apply (Hm r').
  - discriminate.
Qed.

Lemma no_reply_map_flow {A B : Type} (f : A -> flow B) (items : list A) :
  (forall x, no_reply (f x)) -> no_reply (map_flow f items).
Proof.
  intros Hf. induction items as [|x rest IH]; simpl.
  - apply no_reply_Go.
  - apply no_reply_bind; [apply Hf|]. intros y.
    apply no_reply_bind; [exact IH|]. intros ys. apply no_reply_Go.
Qed.

Ltac no_reply_step :=
  first [ apply no_reply_Go | apply no_reply_Thrown | apply no_reply_attempt
        | apply no_reply_bind; [|intro]
        | match goal with |- no_reply (if ?c then _ else _) => destruct c end ].

Lemma no_reply_cleanBullet (b : value) : no_reply (cleanBullet b).
Proof. unfold cleanBullet. repeat no_reply_step. Qed.

Lemma no_reply_normalize (parsed : value) : no_reply (normalize parsed).
Proof.
  unfold normalize. repeat no_reply_step.
  apply no_reply_map_flow, no_reply_cleanBullet.
Qed.

Lemma normalize_cases (parsed : value) :
  normalize parsed = Thrown \/ exists out, normalize parsed = Go out.
Proof.
  destruct (normalize parsed) as [out|r|] eqn:E; eauto.
  now destruct (no_reply_normalize parsed r).
Qed.

(** After validation the handler answers 200 with a normalised body, or
    throws. *)
Lemma respond_cases (reply : completion) :
  respond reply = Thrown \/ exists out, respond reply = Go (ok out).
Proof.
  destruct reply as [|[[|c t]|]]; simpl; auto.
  destruct (parse_reply (c :: t)) as [parsed|]; simpl; auto.
  destruct (normalize_cases parsed) as [E|[out E]]; rewrite E; simpl; eauto.
Qed.

Lemma summarize_cases (req_body : value)
    (callOpenAIChat : language -> jsstring -> completion) :
  summarize req_body callOpenAIChat =
  match validate req_body with
  | Go (lang, trimmed) =>
      match respond (callOpenAIChat lang (safeText trimmed)) with
      | Go r => r
      | Reply r => r
      | Thrown => internal_server_error
      end
  | Reply r => r
  | Thrown => internal_server_error
  end.
Proof.
  unfold summarize, summarize_try.
  destruct (validate req_body) as [[lang trimmed]|r|]; reflexivity.
Qed.

(** Lines 67-73, by cases on the two members the handler reads. *)
Lemma validate_cases (req_body : value) :
  validate req_body =
  match Get req_body (str "text"), Get req_body (str "language") with
  | Some (VStr (c :: s)), Some l =>
      if jslength (trim (c :: s)) <? 50 then Reply text_too_short
      else if jslength (trim (c :: s)) >? 20000 then Reply text_too_long
      else Go (lang_of l, trim (c :: s))
  | Some _, Some _ => Reply invalid_payload
  | _, _ => Thrown
  end.
Proof.
  unfold validate.
  destruct (Get req_body (str "text")) as [text|]; [|reflexivity].
  destruct (Get req_body (str "language")) as [l|];
    [|destruct text as [| | | |[|]| |]; reflexivity].
  destruct text as [| |b|n|[|c s]|items|members]; simpl; try reflexivity.
  - now destruct b.
  - now destruct (number_is_zero n).
Qed.

Ltac differ :=
  let H := fresh in
  intro H; apply (f_equal (fun r => (status r, body r))) in H;
  vm_compute in H; discriminate H.

Ltac not_200 :=
  let H := fresh in
  intro H;
  cbv [status invalid_payload text_too_short text_too_long
       internal_server_error error_response] in H;
  discriminate H.

Lemma ok_not_400 (out : value) (message : string) : ok out <> error_response 400 message.
Proof. intro H. apply (f_equal status) in H. discriminate H. Qed.

Lemma ok_not_500 (out : value) : ok out <> internal_server_error.
Proof. intro H. apply (f_equal status) in H. discriminate H. Qed.

Lemma error_500_not_400 (message : string) :
  internal_server_error <> error_response 400 message.
Proof. intro H. apply (f_equal status) in H. discriminate H. Qed.

(** An accepted request is answered 200 or 500, never 400. *)
Lemma accepted_not_400 (req_body : value)
    (callOpenAIChat : language -> jsstring -> completion)
    (lang : language) (trimmed : jsstring) (message : string) :
  validate req_body = Go (lang, trimmed) ->
  summarize req_body callOpenAIChat <> error_response 400 message.
Proof.
  intros Hv. rewrite summarize_cases, Hv.
  destruct (respond_cases (callOpenAIChat lang (safeText trimmed))) as [E|[out E]];
    rewrite E.
  - apply error_500_not_400.
  - apply ok_not_400.
Qed.

(** A request answered 200 was accepted, the completion service answered
    a text that is not empty, the text was parsed and the parsed value was
    normalised into the body. *)
Lemma summarize_200 (req_body : value)
    (callOpenAIChat : language -> jsstring -> completion) :
  status (summarize req_body callOpenAIChat) = 200 ->
  exists parsed out,
    parsed_of req_body callOpenAIChat = Some parsed
    /\ normalize parsed = Go out
    /\ summarize req_body callOpenAIChat = ok out.
Proof.
  rewrite summarize_cases. unfold parsed_of.
  rewrite validate_cases.
  destruct (Get req_body (str "text")) as [[| | | |[|c s]| |]|];
    destruct (Get req_body (str "language")) as [l|];
    try (not_200).
  destruct (jslength (trim (c :: s)) <? 50);
    [not_200|].
  destruct (jslength (trim (c :: s)) >? 20000);
    [not_200|].
  destruct (callOpenAIChat (lang_of l) (safeText (trim (c :: s))))
    as [|[[|u t]|]]; simpl respond;
    try (not_200).
  destruct (parse_reply (u :: t)) as [parsed|]; simpl;
    [|not_200].
  destruct (normalize_cases parsed) as [E|[out E]]; rewrite E; simpl.
  - not_200.
  - intros _. exists parsed, out. auto.
Qed.

(** ** Validation (C3, C9, C10) *)

Lemma Get_defined (v : value) (k k' : jsstring) (a : value) :
  Get v k = Some a -> exists b, Get v k' = Some b.
Proof. destruct v; simpl; intros H; try discriminate H; eauto. Qed.

Lemma trim_nil : trim [] = [].
Proof. reflexivity. Qed.

(** C3 (amended): POST /summarize answers 400 "Text too long" exactly when
    [text] is a string whose trimmed length exceeds 20000.  So no text of
    raw length at most 20000 is refused as too long; a text of raw length
    above 20000 is refused as too long only if it is still longer than
    20000 once trimmed. *)
Theorem text_too_long_iff_trimmed (req_body : value)
    (callOpenAIChat : language -> jsstring -> completion) :
  (summarize req_body callOpenAIChat = text_too_long
   <-> exists s, Get req_body (str "text") = Some (VStr s)
                 /\ 20000 < jslength (trim s))
  /\ (forall s, Get req_body (str "text") = Some (VStr s) ->
                jslength s <= 20000 ->
                summarize req_body callOpenAIChat <> text_too_long).
Proof.
  assert (Hiff : summarize req_body callOpenAIChat = text_too_long
                 <-> exists s, Get req_body (str "text") = Some (VStr s)
                               /\ 20000 < jslength (trim s)).
  { split.
    - destruct (validate req_body) as [[lang trimmed]|r|] eqn:Hv.
      + intros H. now destruct (accepted_not_400 _ callOpenAIChat _ _ "Text too long" Hv).
      + rewrite summarize_cases, Hv. rewrite validate_cases in Hv.
        destruct (Get req_body (str "text")) as [[| | | |[|c s]| |]|];
          destruct (Get req_body (str "language")) as [l|];
          try discriminate Hv;
          try (injection Hv as <-; intros H; exfalso; revert H; differ).
        destruct (jslength (trim (c :: s)) <? 50);
          [injection Hv as <-; intros H; exfalso; revert H; differ|].
        destruct (jslength (trim (c :: s)) >? 20000) eqn:Hlong; [|discriminate Hv].
        intros _. exists (c :: s). split; [reflexivity|].
        rewrite Z.gtb_ltb in Hlong. now apply Z.ltb_lt in Hlong.
      + rewrite summarize_cases, Hv. intros H. exfalso. revert H. differ.
    - intros [s [Ht Hlong]].
      destruct (Get_defined _ _ (str "language") _ Ht) as [l Hl].
      rewrite summarize_cases, validate_cases, Ht, Hl.
      destruct s as [|c s]; [rewrite trim_nil in Hlong; discriminate Hlong|].
      assert (E1 : (jslength (trim (c :: s)) <? 50) = false) by (apply Z.ltb_ge; lia).
      assert (E2 : (jslength (trim (c :: s)) >? 20000) = true)
        by (rewrite Z.gtb_ltb; apply Z.ltb_lt; lia).
      now rewrite E1, E2. }
  split; [exact Hiff|].
  intros s Ht Hraw H. apply Hiff in H. destruct H as [s' [Ht' Hlong]].
  rewrite Ht in Ht'. injection Ht' as <-.
  pose proof (trim_length s). lia.
Qed.

(** C9 (amended): POST /summarize answers 400 "Text too short" exactly
    when [text] is a string that is not empty and whose trimmed length is
    below 50 (the empty string is refused as a missing text instead).  A
    text of trimmed length 49 is refused as too short; one of trimmed
    length 50 passes the check and is accepted. *)
Theorem text_too_short_iff_trimmed (req_body : value)
    (callOpenAIChat : language -> jsstring -> completion) :
  (summarize req_body callOpenAIChat = text_too_short
   <-> exists c s, Get req_body (str "text") = Some (VStr (c :: s))
                   /\ jslength (trim (c :: s)) < 50)
  /\ (forall s, Get req_body (str "text") = Some (VStr s) ->
                jslength (trim s) = 49 ->
                summarize req_body callOpenAIChat = text_too_short)
  /\ (forall s, Get req_body (str "text") = Some (VStr s) ->
                jslength (trim s) = 50 ->
                exists lang, validate req_body = Go (lang, trim s)).
Proof.
  assert (Hback : forall c s, Get req_body (str "text") = Some (VStr (c :: s)) ->
                  jslength (trim (c :: s)) < 50 ->
                  summarize req_body callOpenAIChat = text_too_short).
  { intros c s Ht Hshort.
    destruct (Get_defined _ _ (str "language") _ Ht) as [l Hl].
    rewrite summarize_cases, validate_cases, Ht, Hl.
    assert (E1 : (jslength (trim (c :: s)) <? 50) = true) by (apply Z.ltb_lt; lia).
    now rewrite E1. }
  split; [split|split].
  - destruct (validate req_body) as [[lang trimmed]|r|] eqn:Hv.
    + intros H. now destruct (accepted_not_400 _ callOpenAIChat _ _ "Text too short" Hv).
    + rewrite summarize_cases, Hv. rewrite validate_cases in Hv.
      destruct (Get req_body (str "text")) as [[| | | |[|c s]| |]|];
        destruct (Get req_body (str "language")) as [l|];
        try discriminate Hv;
        try (injection Hv as <-; intros H; exfalso; revert H; differ).
      destruct (jslength (trim (c :: s)) <? 50) eqn:Hshort.
      * intros _. exists c, s. split; [reflexivity|]. now apply Z.ltb_lt in Hshort.
      * destruct (jslength (trim (c :: s)) >? 20000); [|discriminate Hv].
        injection Hv as <-; intros H; exfalso; revert H; differ.
    + rewrite summarize_cases, Hv. intros H. exfalso. revert H. differ.
  - intros [c [s [Ht Hshort]]]. now apply (Hback c s).
  - intros s Ht H49. destruct s as [|c s]; [rewrite trim_nil in H49; discriminate H49|].
    apply (Hback c s Ht). lia.
  - intros s Ht H50. destruct s as [|c s]; [rewrite trim_nil in H50; discriminate H50|].
    destruct (Get_defined _ _ (str "language") _ Ht) as [l Hl].
    exists (lang_of l). rewrite validate_cases, Ht, Hl, H50. reflexivity.
Qed.

(** C10: a request whose [text] is the empty string, or any other falsy
    value, is answered 400 "Invalid payload: text required", not "Text too
    short". *)
Theorem falsy_text_is_invalid_payload (req_body text : value)
    (callOpenAIChat : language -> jsstring -> completion) :
  Get req_body (str "text") = Some text ->
  ToBoolean text = false ->
  summarize req_body callOpenAIChat = invalid_payload
  /\ summarize req_body callOpenAIChat <> text_too_short.
Proof.
  intros Ht Hfalsy.
  assert (E : summarize req_body callOpenAIChat = invalid_payload).
  { destruct (Get_defined _ _ (str "language") _ Ht) as [l Hl].
    rewrite summarize_cases, validate_cases, Ht, Hl.
    destruct text as [| | | |[|c s]| |]; try reflexivity; discriminate Hfalsy. }
  split; [exact E|]. rewrite E. differ.
Qed.

(** ** The sanitised text (C4) *)

Lemma entity_plain (c : N) : ~ In c escaped_characters -> entity c = [c].
Proof.
  intros H. entity_cases c; try reflexivity; subst c; destruct H;
    unfold escaped_characters; simpl; tauto.
Qed.

Lemma starts_with_app (e rest : jsstring) : starts_with e (e ++ rest) = true.
Proof. induction e as [|x e IH]; simpl; [reflexivity|]. now rewrite N.eqb_refl. Qed.

(** Each entity is an ampersand followed by characters that are not one,
    and has no white space in it. *)
Lemma entities_shape :
  forallb (fun e => match e with
                    | c :: tail =>
                        (c =? 38)%N
                        && forallb (fun x => negb (x =? 38)%N) tail
                        && forallb (fun x => negb (is_space x)) e
                    | [] => false
                    end) entities = true.
Proof. vm_compute. reflexivity. Qed.

Lemma entity_shape (e : jsstring) :
  In e entities ->
  exists tail, e = 38%N :: tail
               /\ forallb (fun x => negb (x =? 38)%N) tail = true
               /\ forallb (fun x => negb (is_space x)) e = true.
Proof.
  intros He. pose proof (proj1 (forallb_forall _ _) entities_shape e He) as H.
  destruct e as [|c tail]; [discriminate H|].
  apply andb_prop in H. destruct H as [H H3].
  apply andb_prop in H. destruct H as [H1 H2].
  apply N.eqb_eq in H1. subst c. exists tail. auto.
Qed.

Lemma ampersands_app_plain (cut : bool) (a b : jsstring) :
  forallb (fun x => negb (x =? 38)%N) a = true ->
  ampersands_head_entities cut (a ++ b) = ampersands_head_entities cut b.
Proof.
  induction a as [|x a IH]; simpl; [reflexivity|]. intros H.
  apply andb_prop in H. destruct H as [Hx Ha].
  apply negb_true_iff in Hx. rewrite Hx. simpl. now apply IH.
Qed.

Lemma heads_entity_app (e rest : jsstring) :
  In e entities -> heads_entity (e ++ rest) = true.
Proof.
  intros He. unfold heads_entity. apply existsb_exists.
  exists e. split; [exact He|apply starts_with_app].
Qed.

Lemma ampersands_entity (cut : bool) (e rest : jsstring) :
  In e entities ->
  ampersands_head_entities cut rest = true ->
  ampersands_head_entities cut (e ++ rest) = true.
Proof.
  intros He Hrest. pose proof (heads_entity_app e rest He) as Hhead.
  destruct (entity_shape e He) as [tail [-> [Htail _]]].
  change ((38%N :: tail) ++ rest) with (38%N :: (tail ++ rest)) in *.
  cbn [ampersands_head_entities]. rewrite N.eqb_refl, Hhead.
  cbn [orb andb]. now rewrite ampersands_app_plain.
Qed.

(** In an escaped text every '&' heads an entity. *)
Lemma ampersands_escape (t : jsstring) :
  ampersands_head_entities false (escape t) = true.
Proof.
  rewrite escape_flat_map. induction t as [|c t IH]; [reflexivity|].
  cbn [flat_map].
  destruct (in_dec N.eq_dec c escaped_characters) as [Hc|Hc].
  - apply ampersands_entity; [|exact IH]. unfold entities. now apply in_map.
  - rewrite (entity_plain c Hc).
    assert (E : (c =? 38)%N = false).
    { apply N.eqb_neq. intros ->. apply Hc. now left. }
    cbn [app ampersands_head_entities]. now rewrite E.
Qed.

Lemma starts_with_collapse (e s : jsstring) :
  forallb (fun x => negb (is_space x)) e = true ->
  starts_with e s = true ->
  starts_with e (collapse_from false s) = true.
Proof.
  revert s. induction e as [|x e IH]; intros s He; [reflexivity|].
  destruct s as [|y s]; [discriminate|]. cbn [starts_with forallb] in *.
  apply andb_prop in He. destruct He as [Hx He]. intros H.
  apply andb_prop in H. destruct H as [Hxy H].
  apply N.eqb_eq in Hxy. subst y. apply negb_true_iff in Hx.
  cbn [collapse_from]. rewrite Hx. cbn [starts_with].
  now rewrite N.eqb_refl, (IH s He H).
Qed.

Lemma heads_entity_collapse (r : jsstring) :
  heads_entity (38%N :: r) = true ->
  heads_entity (38%N :: collapse_from false r) = true.
Proof.
  unfold heads_entity. intros H. apply existsb_exists in H.
  destruct H as [e [He Hs]]. apply existsb_exists. exists e. split; [exact He|].
  destruct (entity_shape e He) as [tail [_ [_ Hplain]]].
  apply (starts_with_collapse e (38%N :: r) Hplain) in Hs. exact Hs.
Qed.

(** Collapsing the white space leaves the entities whole. *)
Lemma ampersands_collapse (s : jsstring) (in_run : bool) :
  ampersands_head_entities false s = true ->
  ampersands_head_entities false (collapse_from in_run s) = true.
Proof.
  revert in_run. induction s as [|c r IH]; intros in_run H; [reflexivity|].
  cbn [ampersands_head_entities] in H. apply andb_prop in H. destruct H as [Hc Hr].
  cbn [collapse_from]. destruct (is_space c) eqn:Es.
  - destruct in_run; [now apply IH|].
    cbn [ampersands_head_entities]. change (32 =? 38)%N with false. now apply IH.
  - cbn [ampersands_head_entities]. rewrite (IH false Hr).
    destruct (c =? 38)%N eqn:E; [|reflexivity].
    apply N.eqb_eq in E. subst c. cbn [andb orb] in Hc.
    rewrite orb_false_r in Hc. now rewrite (heads_entity_collapse r Hc).
Qed.

Lemma starts_with_firstn (e s : jsstring) (k : nat) :
  starts_with e s = true ->
  starts_with e (firstn k s) = true \/ starts_with (firstn k s) e = true.
Proof.
  revert s k. induction e as [|x e IH]; intros s k H; [now left|].
  destruct s as [|y s]; [discriminate H|].
  destruct k as [|k]; [now right|].
  cbn [starts_with] in H. apply andb_prop in H. destruct H as [Hxy H].
  apply N.eqb_eq in Hxy. subst y. cbn [firstn starts_with].
  rewrite N.eqb_refl. exact (IH s k H).
Qed.

(** Truncation leaves every '&' at the head of an entity, whole or cut
    short by the end. *)
Lemma ampersands_firstn (n : nat) (s : jsstring) :
  ampersands_head_entities false s = true ->
  ampersands_head_entities true (firstn n s) = true.
Proof.
  revert s. induction n as [|n IH]; intros s H; [reflexivity|].
  destruct s as [|c r]; [reflexivity|].
  cbn [ampersands_head_entities] in H. apply andb_prop in H. destruct H as [Hc Hr].
  change (firstn (S n) (c :: r)) with (c :: firstn n r).
  cbn [ampersands_head_entities]. rewrite (IH r Hr).
  destruct (c =? 38)%N; [|reflexivity].
  rewrite orb_false_r in Hc. unfold heads_entity in Hc.
  apply existsb_exists in Hc. destruct Hc as [e [He Hs]].
  destruct (starts_with_firstn e (c :: r) (S n) Hs) as [H|H];
    change (firstn (S n) (c :: r)) with (c :: firstn n r) in H.
  - assert (E : heads_entity (c :: firstn n r) = true)
      by (apply existsb_exists; exists e; auto).
    now rewrite E.
  - assert (E : heads_cut_entity (c :: firstn n r) = true)
      by (apply existsb_exists; exists e; auto).
    rewrite E. cbn [andb]. now rewrite orb_true_r.
Qed.

Lemma not_existsb_eqb (c : N) (t : jsstring) :
  ~ In c t -> existsb (N.eqb c) t = false.
Proof.
  intros H. destruct (existsb (N.eqb c) t) eqn:E; [|reflexivity].
  apply existsb_exists in E. destruct E as [x [Hx Heq]].
  apply N.eqb_eq in Heq. subst x. contradiction.
Qed.

(** C4 (amended): the sanitised text of every text, accepted or not, has
    at most 20000 code units, truncation coming after the escaping that
    can lengthen it, and has no '<' and no '>' in it.  Every '&' in it is
    the first character of an entity that the escaping wrote, except that
    the truncation can cut the last entity short, leaving a beginning of
    it, down to a bare '&', at the very end; when nothing is truncated
    every entity is whole.  The handler never asks the completion service
    about another text. *)
Theorem safeText_short_and_escaped (text : jsstring) :
  jslength (safeText text) <= 20000
  /\ ~ In 60%N (safeText text)
  /\ ~ In 62%N (safeText text)
  /\ ampersands_head_entities true (safeText text) = true
  /\ (jslength (collapse_spaces (escape text)) <= 20000 ->
      ampersands_head_entities false (safeText text) = true)
  /\ (forall req_body callOpenAIChat,
        summarize req_body callOpenAIChat
        = summarize req_body
            (fun lang t => if sanitised t then callOpenAIChat lang t else Failed)).
Proof.
  assert (Hlt : forall t, ~ In 60%N (safeText t)).
  { intros t H. apply safeText_In in H.
    destruct H as [H|H]; [discriminate H|]. now apply escape_no_lt in H. }
  assert (Hgt : forall t, ~ In 62%N (safeText t)).
  { intros t H. apply safeText_In in H.
    destruct H as [H|H]; [discriminate H|]. now apply escape_no_gt in H. }
  assert (Hamp : ampersands_head_entities false (collapse_spaces (escape text)) = true).
  { unfold collapse_spaces. apply ampersands_collapse, ampersands_escape. }
  split; [apply safeText_length|]. split; [apply Hlt|]. split; [apply Hgt|].
  split; [|split].
  - unfold safeText, slice0. now apply ampersands_firstn.
  - intros Hlen. unfold safeText, slice0. rewrite firstn_all2; [exact Hamp|].
    unfold jslength in Hlen. lia.
  - intros req_body callOpenAIChat. rewrite !summarize_cases.
    destruct (validate req_body) as [[lang trimmed]|r|]; try reflexivity.
    assert (E : sanitised (safeText trimmed) = true).
    { unfold sanitised.
      rewrite (not_existsb_eqb _ _ (Hlt trimmed)), (not_existsb_eqb _ _ (Hgt trimmed)).
      pose proof (safeText_length trimmed) as Hlen.
      apply Z.leb_le in Hlen. now rewrite Hlen. }
    now rewrite E.
Qed.

(** ** Normalisation (C1, C2, C7) *)

Lemma Array_join_defined (render : value -> option jsstring) (items : list value) :
  Forall (fun x => printable x = true -> exists s, render x = Some s) items ->
  forallb printable items = true ->
  exists s, Array_join render items = Some s.
Proof.
  induction 1 as [|x rest Hx _ IH]; intros Hp; simpl in *.
  - eauto.
  - apply andb_prop in Hp. destruct Hp as [Hpx Hprest].
    destruct (IH Hprest) as [t Ht].
    assert (He : exists e, match x with
                           | VUndefined | VNull => Some []
                           | _ => render x
                           end = Some e).
    { destruct (Hx Hpx) as [e He]. destruct x; eauto. }
    destruct He as [e He]. rewrite He, Ht. destruct rest; eauto.
Qed.

(** [String(v)] returns when no object in the way has a [toString]
    member of its own. *)
Lemma ToString_defined (v : value) :
  printable v = true -> exists s, ToString v = Some s.
Proof.
  induction v as [| |b|n|s|items IH|members _] using value_nested_ind;
    simpl; intros Hp; eauto.
  - now apply Array_join_defined.
  - destruct (has_member (str "toString") members); [discriminate Hp|eauto].
Qed.

Lemma and_get_defined (b : value) (k : jsstring) :
  exists v, and_get b k = Some v
            /\ (ToBoolean v = true -> Get b k = Some v).
Proof.
  unfold and_get. destruct (ToBoolean b) eqn:Hb.
  - destruct b; simpl in *; try discriminate Hb; eauto.
  - exists b. split; [reflexivity|]. congruence.
Qed.

(** The callback of line 130 in terms of the two members it reads. *)
Lemma cleanBullet_eq (b : value) :
  cleanBullet b =
  (t <- (if ToBoolean (member "type" b)
         then s <- attempt (ToString (member "type" b)) ;; Go (toLowerCase s)
         else Go (str "con")) ;;
   txt <- (if ToBoolean (member "text" b)
           then attempt (ToString (member "text" b))
           else Go []) ;;
   Go (VObj [(str "type",
              VStr (if jsstring_eqb t (str "pro") then str "pro"
                    else if jsstring_eqb t (str "warning") then str "warning"
                    else str "con"));
             (str "text", VStr txt)])).
Proof.
  unfold cleanBullet, member.
  destruct (and_get_defined b (str "type")) as [ty [Ety Hty]].
  destruct (and_get_defined b (str "text")) as [tx [Etx Htx]].
  rewrite Ety, Etx. simpl.
  destruct (ToBoolean ty) eqn:Bty.
  - rewrite (Hty eq_refl). simpl.
    destruct (ToString ty) as [s|]; simpl; [|reflexivity].
    destruct (ToBoolean tx) eqn:Btx; [|reflexivity].
    rewrite (Htx eq_refl). reflexivity.
  - simpl. destruct (ToBoolean tx) eqn:Btx; [|reflexivity].
    rewrite (Htx eq_refl). reflexivity.
Qed.

(** A bullet that is returned is the bullet the specification describes. *)
Lemma cleanBullet_described (b c : value) :
  cleanBullet b = Go c -> c = described_bullet b.
Proof.
  rewrite cleanBullet_eq. unfold described_bullet, described_type, described_text.
  destruct (ToBoolean (member "type" b)); simpl.
  - destruct (ToString (member "type" b)) as [s|]; simpl; [|discriminate].
    destruct (ToBoolean (member "text" b)); simpl.
    + destruct (ToString (member "text" b)) as [txt|]; simpl; [|discriminate].
      now intros [= <-].
    + now intros [= <-].
  - destruct (ToBoolean (member "text" b)); simpl.
    + destruct (ToString (member "text" b)) as [txt|]; simpl; [|discriminate].
      now intros [= <-].
    + now intros [= <-].
Qed.

(** A bullet whose type and text can be written as strings is returned. *)
Lemma cleanBullet_defined (b : value) :
  printable_bullet b = true -> cleanBullet b = Go (described_bullet b).
Proof.
  unfold printable_bullet. intros Hp. apply andb_prop in Hp. destruct Hp as [Hty Htx].
  destruct (ToString_defined _ Hty) as [s Es].
  destruct (ToString_defined _ Htx) as [txt Etxt].
  rewrite cleanBullet_eq. unfold described_bullet, described_type, described_text.
  rewrite Es, Etxt.
  destruct (ToBoolean (member "type" b)); destruct (ToBoolean (member "text" b));
    reflexivity.
Qed.

Lemma map_flow_described (items cleaned : list value) :
  map_flow cleanBullet items = Go cleaned -> cleaned = map described_bullet items.
Proof.
  revert cleaned. induction items as [|b rest IH]; intros cleaned; simpl.
  - now intros [= <-].
  - destruct (cleanBullet b) as [c|r|] eqn:Ec; simpl; try discriminate.
    destruct (map_flow cleanBullet rest) as [cs|r|]; simpl; try discriminate.
    intros [= <-]. now rewrite (cleanBullet_described _ _ Ec), (IH cs eq_refl).
Qed.

Lemma map_flow_defined (items : list value) :
  forallb printable_bullet items = true ->
  map_flow cleanBullet items = Go (map described_bullet items).
Proof.
  induction items as [|b rest IH]; simpl; intros Hp; [reflexivity|].
  apply andb_prop in Hp. destruct Hp as [Hb Hrest].
  now rewrite (cleanBullet_defined _ Hb), (IH Hrest).
Qed.

Lemma described_bullet_is_bullet (b : value) : is_bullet (described_bullet b) = true.
Proof.
  unfold described_bullet, described_type.
  destruct (if ToBoolean (member "type" b) then ToString (member "type" b) else None)
    as [s|]; [|reflexivity].
  destruct (jsstring_eqb (toLowerCase s) (str "pro")); [reflexivity|].
  destruct (jsstring_eqb (toLowerCase s) (str "warning")); reflexivity.
Qed.

Lemma described_bullets_are_bullets (items : list value) :
  forallb is_bullet (map described_bullet items) = true.
Proof.
  induction items as [|b rest IH]; cbn [map forallb]; [reflexivity|].
  now rewrite described_bullet_is_bullet, IH.
Qed.

(** What [normalize] returns when it returns. *)
Lemma normalize_returns (parsed out : value) :
  normalize parsed = Go out ->
  exists s r,
    Get parsed (str "summary") = Some s
    /\ Get parsed (str "rating") = Some r
    /\ out = VObj [(str "summary", or_else s (VStr []));
                   (str "bullets", VArr (map described_bullet (bullets_of parsed)));
                   (str "rating", or_else r (VStr (str "Risky")))].
Proof.
  unfold normalize, bullets_of.
  destruct (Get parsed (str "summary")) as [s|]; simpl; [|discriminate].
  destruct (Get parsed (str "bullets")) as [b|]; simpl; [|discriminate].
  destruct (Get parsed (str "rating")) as [r|]; simpl; [|discriminate].
  destruct (map_flow cleanBullet match b with VArr items => items | _ => [] end)
    as [cleaned|r'|] eqn:Em; simpl; try discriminate.
  intros [= <-]. exists s, r. apply map_flow_described in Em. subst cleaned.
  repeat split.
Qed.

Lemma Get_of_defined (v : value) (k : jsstring) :
  v <> VNull -> v <> VUndefined -> exists a, Get v k = Some a.
Proof. destruct v; simpl; intros H1 H2; try congruence; eauto. Qed.

Lemma or_else_defined (v d : value) : d <> VUndefined -> or_else v d <> VUndefined.
Proof.
  intros Hd. unfold or_else. destruct (ToBoolean v) eqn:E; [|exact Hd].
  intros ->. discriminate E.
Qed.

(** An object of three members, none [undefined], is sent member by
    member. *)
Lemma sent_three (k1 k2 k3 : jsstring) (a b c : value) :
  a <> VUndefined -> b <> VUndefined -> c <> VUndefined ->
  sent (VObj [(k1, a); (k2, b); (k3, c)])
  = VObj [(k1, sent a); (k2, sent b); (k3, sent c)].
Proof.
  intros Ha Hb Hc.
  destruct a; try congruence; destruct b; try congruence;
    destruct c; try congruence; reflexivity.
Qed.

(** The bullets the handler builds are sent as they are. *)
Lemma sent_described_bullets (items : list value) :
  sent (VArr (map described_bullet items)) = VArr (map described_bullet items).
Proof.
  simpl. f_equal. rewrite map_map. apply map_ext. reflexivity.
Qed.

Lemma is_rating_sent (v : value) : is_rating (sent v) = is_rating v.
Proof.
  destruct v as [| | |n| | |]; try reflexivity. simpl.
  destruct (number_is_infinite n); [reflexivity|].
  destruct (number_is_zero n); reflexivity.
Qed.

(** The members of the body of a 200 response. *)
Lemma field_of_result (s r : value) (items : list value) :
  field "summary" (ok (VObj [(str "summary", or_else s (VStr []));
                             (str "bullets", VArr (map described_bullet items));
                             (str "rating", or_else r (VStr (str "Risky")))]))
  = Some (sent (or_else s (VStr [])))
  /\ field "bullets" (ok (VObj [(str "summary", or_else s (VStr []));
                                (str "bullets", VArr (map described_bullet items));
                                (str "rating", or_else r (VStr (str "Risky")))]))
     = Some (VArr (map described_bullet items))
  /\ field "rating" (ok (VObj [(str "summary", or_else s (VStr []));
                               (str "bullets", VArr (map described_bullet items));
                               (str "rating", or_else r (VStr (str "Risky")))]))
     = Some (sent (or_else r (VStr (str "Risky")))).
Proof.
  unfold ok, field. cbn [body].
  rewrite sent_three, sent_described_bullets;
    try (apply or_else_defined; discriminate); try discriminate.
  repeat split.
Qed.

(** C1 (amended): in every 200 response of POST /summarize the rating is
    there, and it is the rating of the parsed reply when that is truthy and
    "Risky" otherwise, as [JSON.stringify] writes it: a number too large
    for a double, such as 1e400, is written [null].  It is one of "Secure",
    "Risky" and "Not secure" exactly when the parsed rating is falsy (or
    missing) or is one of the three itself; a truthy string outside the
    three is passed on as it is. *)
Theorem rating_of_a_200_response (req_body : value)
    (callOpenAIChat : language -> jsstring -> completion) :
  status (summarize req_body callOpenAIChat) = 200 ->
  exists parsed r,
    parsed_of req_body callOpenAIChat = Some parsed
    /\ Get parsed (str "rating") = Some r
    /\ field "rating" (summarize req_body callOpenAIChat)
       = Some (sent (or_else r (VStr (str "Risky"))))
    /\ (is_rating (sent (or_else r (VStr (str "Risky")))) = true
        <-> ToBoolean r = false \/ is_rating r = true).
Proof.
  intros H200. destruct (summarize_200 _ _ H200) as [parsed [out [Hp [Hn Hs]]]].
  destruct (normalize_returns _ _ Hn) as [s [r [Hsum [Hr Hout]]]].
  exists parsed, r. repeat split; try assumption.
  - rewrite Hs, Hout. apply field_of_result.
  - rewrite is_rating_sent. unfold or_else. destruct (ToBoolean r); auto.
  - rewrite is_rating_sent. unfold or_else. destruct (ToBoolean r); [|reflexivity].
    intros [H|H]; [discriminate H|exact H].
Qed.

(** C2 (amended): for every parsed value other than [null] whose bullets
    have a type and a text that [String] can write (no object with a
    [toString] member of its own), normalisation returns: the summary is
    the parsed summary when that is truthy, of whatever type it is, and the
    empty string otherwise; the bullets are well-formed bullets, one for
    each parsed element; the rating is the parsed rating when that is
    truthy, whatever it is, and "Risky" otherwise. *)
Theorem normalize_defined (parsed : value) :
  parsed <> VNull -> parsed <> VUndefined ->
  forallb printable_bullet (bullets_of parsed) = true ->
  exists s r bullets,
    Get parsed (str "summary") = Some s
    /\ Get parsed (str "rating") = Some r
    /\ bullets = map described_bullet (bullets_of parsed)
    /\ forallb is_bullet bullets = true
    /\ normalize parsed
       = Go (VObj [(str "summary", or_else s (VStr []));
                   (str "bullets", VArr bullets);
                   (str "rating", or_else r (VStr (str "Risky")))]).
Proof.
  intros Hnull Hundef Hp.
  destruct (Get_of_defined parsed (str "summary") Hnull Hundef) as [s Hs].
  destruct (Get_of_defined parsed (str "rating") Hnull Hundef) as [r Hr].
  destruct (Get_of_defined parsed (str "bullets") Hnull Hundef) as [b Hb].
  exists s, r, (map described_bullet (bullets_of parsed)).
  repeat split; try assumption.
  - apply described_bullets_are_bullets.
  - unfold normalize. rewrite Hs, Hb, Hr. simpl.
    assert (E : match b with VArr items => items | _ => [] end = bullets_of parsed).
    { unfold bullets_of. rewrite Hb. reflexivity. }
    rewrite E, (map_flow_defined _ Hp). reflexivity.
Qed.

(** C7: in every 200 response of POST /summarize the bullets are, element
    by element, the bullets the specification describes for the parsed [bullets]:
    [type] is pro or warning when the type of the element, lower-cased, is
    exactly that and con otherwise, [text] is a string, empty when the
    element has no text; and the list is empty when the parsed [bullets] is
    not an array. *)
Theorem bullets_of_a_200_response (req_body : value)
    (callOpenAIChat : language -> jsstring -> completion) :
  status (summarize req_body callOpenAIChat) = 200 ->
  exists parsed,
    parsed_of req_body callOpenAIChat = Some parsed
    /\ field "bullets" (summarize req_body callOpenAIChat)
       = Some (VArr (map described_bullet (bullets_of parsed)))
    /\ forallb is_bullet (map described_bullet (bullets_of parsed)) = true
    /\ ((forall items, Get parsed (str "bullets") <> Some (VArr items)) ->
        field "bullets" (summarize req_body callOpenAIChat) = Some (VArr [])).
Proof.
  intros H200. destruct (summarize_200 _ _ H200) as [parsed [out [Hp [Hn Hs]]]].
  destruct (normalize_returns _ _ Hn) as [s [r [Hsum [Hr Hout]]]].
  assert (Hb : field "bullets" (summarize req_body callOpenAIChat)
               = Some (VArr (map described_bullet (bullets_of parsed)))).
  { rewrite Hs, Hout. apply field_of_result. }
  exists parsed. repeat split; try assumption.
  - apply described_bullets_are_bullets.
  - intros Hnot. rewrite Hb. unfold bullets_of.
    destruct (Get parsed (str "bullets")) as [[| | | | |items|]|]; try reflexivity.
    now destruct (Hnot items).
Qed.

(** ** The parser of the reply (C5, C6) *)

Lemma from_first_None (c : N) (s : jsstring) :
  from_first c s = None <-> ~ In c s.
Proof.
  induction s as [|x r IH]; simpl.
  - tauto.
  - destruct (N.eqb_spec x c) as [E|E].
    + split; [discriminate|]. intros H. destruct H. now left.
    + rewrite IH. tauto.
Qed.

Lemma from_first_Some (c : N) (s t : jsstring) :
  from_first c s = Some t <->
  exists pre rest, s = pre ++ t /\ t = c :: rest /\ ~ In c pre.
Proof.
  revert t. induction s as [|x r IH]; intros t; simpl.
  - split; [discriminate|]. intros [pre [rest [E [-> _]]]].
    now destruct pre.
  - destruct (N.eqb_spec x c) as [E|E].
    + subst x. split.
      * intros [= <-]. exists [], r. simpl. tauto.
      * intros [pre [rest [E1 [-> Hpre]]]]. destruct pre as [|y pre].
        -- simpl in E1. now rewrite E1.
        -- injection E1 as <- _. destruct Hpre. now left.
    + rewrite IH. split.
      * intros [pre [rest [-> [-> Hpre]]]]. exists (x :: pre), rest.
        simpl. intuition congruence.
      * intros [pre [rest [E1 [-> Hpre]]]]. destruct pre as [|y pre].
        -- simpl in E1. injection E1 as -> _. congruence.
        -- injection E1 as <- ->. exists pre, rest. simpl in Hpre. tauto.
Qed.

Lemma upto_last_Some (c : N) (s m : jsstring) :
  upto_last c s = Some m <->
  exists front post, s = m ++ post /\ m = front ++ [c] /\ ~ In c post.
Proof.
  unfold upto_last. split.
  - destruct (from_first c (rev s)) as [t|] eqn:E; simpl; [|discriminate].
    intros [= <-]. apply from_first_Some in E.
    destruct E as [pre [rest [E1 [-> Hpre]]]].
    exists (rev rest), (rev pre). repeat split.
    + rewrite <- (rev_involutive s), E1, rev_app_distr. reflexivity.
    + now rewrite <- in_rev.
  - intros [front [post [-> [-> Hpost]]]].
    assert (E : from_first c (rev ((front ++ [c]) ++ post)) = Some (c :: rev front)).
    { apply from_first_Some. exists (rev post), (rev front). repeat split.
      - rewrite !rev_app_distr. reflexivity.
      - now rewrite <- in_rev. }
    rewrite E. simpl. now rewrite rev_involutive.
Qed.

(** [match_braces] is the span from the first '{' to the last '}'. *)
Lemma match_braces_Some (t m : jsstring) :
  match_braces t = Some m <->
  exists pre inner post,
    t = pre ++ m ++ post /\ m = 123%N :: inner ++ [125%N]
    /\ ~ In 123%N pre /\ ~ In 125%N post.
Proof.
  unfold match_braces. split.
  - destruct (from_first 123 t) as [u|] eqn:E; [|discriminate].
    apply from_first_Some in E. destruct E as [pre [rest [-> [-> Hpre]]]].
    intros H. apply upto_last_Some in H.
    destruct H as [front [post [E1 [-> Hpost]]]].
    destruct front as [|x front].
    + simpl in E1. discriminate E1.
    + injection E1 as <- E1. exists pre, front, post. simpl. rewrite E1.
      repeat split; try assumption; try (now rewrite <- app_assoc).
  - intros [pre [inner [post [-> [-> [Hpre Hpost]]]]]].
    assert (E : from_first 123 (pre ++ (123%N :: inner ++ [125%N]) ++ post)
                = Some ((123%N :: inner ++ [125%N]) ++ post)).
    { apply from_first_Some. exists pre, ((inner ++ [125%N]) ++ post). tauto. }
    rewrite E. apply upto_last_Some. exists (123%N :: inner), post. tauto.
Qed.

(** Without a '{', or without a '}', nothing matches. *)
Lemma match_braces_None (t : jsstring) :
  ~ In 123%N t \/ ~ In 125%N t -> match_braces t = None.
Proof.
  intros H. destruct (match_braces t) as [m|] eqn:E; [|reflexivity].
  apply match_braces_Some in E.
  destruct E as [pre [inner [post [-> [-> _]]]]].
  destruct H as [H|H]; destruct H; apply in_or_app; right; apply in_or_app; left.
  - now left.
  - right. apply in_or_app. right. now left.
Qed.

(** C5: the reply is first parsed as it is, and that parse is the result
    when it succeeds; only when it fails is the span from the first '{' to
    the last '}' parsed instead.  For the reply
    "Sure, here you go:\n{...}" of the specification the handler answers
    200 with summary "x", no bullets and rating "Secure". *)
Theorem parse_reply_direct_then_braces :
  (forall t parsed, JSON_parse t = Some parsed -> parse_reply t = Some parsed)
  /\ (forall t, JSON_parse t = None ->
       parse_reply t = match match_braces t with
                       | Some m => JSON_parse m
                       | None => None
                       end)
  /\ (forall t m, match_braces t = Some m <->
       exists pre inner post,
         t = pre ++ m ++ post /\ m = 123%N :: inner ++ [125%N]
         /\ ~ In 123%N pre /\ ~ In 125%N post)
  /\ (JSON_parse wrapped_reply = None
      /\ match_braces wrapped_reply = Some recovered_text
      /\ parse_reply wrapped_reply = Some recovered_result)
  /\ (forall req_body callOpenAIChat lang trimmed,
       validate req_body = Go (lang, trimmed) ->
       callOpenAIChat lang (safeText trimmed) = Answered (Some wrapped_reply) ->
       summarize req_body callOpenAIChat = ok recovered_result).
Proof.
  split; [|split; [|split; [|split]]].
  - intros t parsed H. unfold parse_reply. now rewrite H.
  - intros t H. unfold parse_reply. now rewrite H.
  - apply match_braces_Some.
  - repeat split; vm_compute; reflexivity.
  - intros req_body callOpenAIChat lang trimmed Hv Hup.
    rewrite summarize_cases, Hv, Hup. vm_compute. reflexivity.
Qed.

(** C6: when the completion service answers a text that has no '{' or no
    '}' in it and is not JSON, POST /summarize answers 500 with the body
    [{ error: "Internal server error" }] and nothing else. *)
Theorem unparseable_reply_is_500 (req_body : value)
    (callOpenAIChat : language -> jsstring -> completion)
    (lang : language) (trimmed textResp : jsstring) :
  validate req_body = Go (lang, trimmed) ->
  callOpenAIChat lang (safeText trimmed) = Answered (Some textResp) ->
  ~ In 123%N textResp \/ ~ In 125%N textResp ->
  JSON_parse textResp = None ->
  summarize req_body callOpenAIChat = internal_server_error
  /\ status (summarize req_body callOpenAIChat) = 500
  /\ body (summarize req_body callOpenAIChat)
     = VObj [(str "error", VStr (str "Internal server error"))].
Proof.
  intros Hv Hup Hbraces Hjson.
  assert (E : summarize req_body callOpenAIChat = internal_server_error).
  { rewrite summarize_cases, Hv, Hup.
    destruct textResp as [|c t]; [reflexivity|].
    unfold respond, parse_reply. now rewrite Hjson, (match_braces_None _ Hbraces). }
  rewrite E. repeat split.
Qed.

(** [JSON.parse] never returns [undefined]. *)

Ltac split_ifs :=
  repeat match goal with
         | |- context [if ?b then _ else _] => destruct b
         end.

Ltac defined_result :=
  let H := fresh in
  intro H; try discriminate H; injection H as <-; simpl; try exact I;
  try assumption; try discriminate.

Lemma after_value_defined (v : value) (st : list frame) (c : N) (s' : pstate) :
  v <> VUndefined -> after_value v st c = Some s' -> defined_state s'.
Proof.
  intros Hv. unfold after_value. destruct (json_ws c); [defined_result|].
  destruct st as [|[done|done key] st']; split_ifs; defined_result.
Qed.

Lemma start_value_defined (st : list frame) (c : N) (s' : pstate) :
  start_value st c = Some s' -> defined_state s'.
Proof. unfold start_value. split_ifs; defined_result. Qed.

Lemma step_defined (s s' : pstate) (c : N) :
  defined_state s -> step s c = Some s' -> defined_state s'.
Proof.
  destruct s as [st|st|st|done st|done key st|p acc|p acc|p acc todo code
                 |rest v st|ph a st|v st]; simpl; intros Hs.
  - destruct (json_ws c); [defined_result|apply start_value_defined].
  - destruct (json_ws c); [defined_result|].
    destruct (c =? 93)%N; [defined_result|apply start_value_defined].
  - split_ifs; defined_result.
  - split_ifs; defined_result.
  - split_ifs; defined_result.
  - destruct p; split_ifs; defined_result.
  - destruct (c =? 117)%N; [defined_result|].
    destruct (unescape c); defined_result.
  - destruct (hex_digit c); [|defined_result].
    destruct todo as [|[|k]]; defined_result.
  - destruct rest as [|x [|y more]]; split_ifs; defined_result.
  - unfold step_number. destruct ph; split_ifs; try defined_result;
      apply after_value_defined; discriminate.
  - now apply after_value_defined.
Qed.

Lemma steps_defined (text : jsstring) (s s' : pstate) :
  defined_state s -> steps s text = Some s' -> defined_state s'.
Proof.
  revert s. induction text as [|c rest IH]; intros s Hs; simpl.
  - now intros [= <-].
  - destruct (step s c) as [s1|] eqn:E; [|discriminate].
    apply IH. now apply (step_defined s s1 c).
Qed.

Lemma JSON_parse_defined (text : jsstring) : JSON_parse text <> Some VUndefined.
Proof.
  unfold JSON_parse. destruct (steps (SValue []) text) as [s|] eqn:E; [|discriminate].
  apply steps_defined in E; [|exact I].
  destruct s as [| | | | | | | | |ph a st|v st]; simpl; try discriminate.
  - destruct ph; destruct st; discriminate.
  - destruct st; [|discriminate]. simpl in E. congruence.
Qed.

(** ** The rate limiter (C8) *)

Lemma serve_eq (st : store) (r : request) :
  serve st r =
  ((ip r, counted st (ip r) (at_ms r)) :: st,
   if hits (counted st (ip r) (at_ms r)) <=? max_hits
   then handle (target r) else too_many_requests).
Proof. reflexivity. Qed.

Lemma serve_all_cons (st : store) (r : request) (rest : list request) :
  serve_all st (r :: rest) =
  (fst (serve_all (fst (serve st r)) rest),
   (r, snd (serve st r)) :: snd (serve_all (fst (serve st r)) rest)).
Proof.
  cbn [serve_all]. destruct (serve st r) as [st' out]. cbn [fst snd].
  destruct (serve_all st' rest) as [st'' outs]. reflexivity.
Qed.

Lemma jsstring_eqb_sym (a b : jsstring) : jsstring_eqb a b = jsstring_eqb b a.
Proof.
  unfold jsstring_eqb.
  destruct (list_eq_dec N.eq_dec a b); destruct (list_eq_dec N.eq_dec b a); congruence.
Qed.

(** Inside a running window of [who]: the requests of [who] that still fit
    pass, the others are refused, and the window stays. *)
Lemma serve_all_in_window (who : jsstring) (rs : list request) :
  forall (st : store) (w : window),
    find_window who st = Some w ->
    (forall r, In r rs -> ip r = who -> at_ms r < resetTime w) ->
    responses_to who (snd (serve_all st rs))
    = first_pass (Z.to_nat (max_hits - hits w)) (filter (from_client who) rs)
    /\ exists w', find_window who (fst (serve_all st rs)) = Some w'
                  /\ resetTime w' = resetTime w.
Proof.
  induction rs as [|r rest IH]; intros st w Hw Hin.
  - simpl. split; [now destruct (Z.to_nat (max_hits - hits w))|eauto].
  - rewrite serve_all_cons, serve_eq. cbn [fst snd].
    unfold responses_to. cbn [filter map fst snd].
    destruct (from_client who r) eqn:Hr; unfold from_client in Hr.
    + apply jsstring_eqb_eq in Hr.
      assert (Hc : counted st (ip r) (at_ms r) = mkWindow (hits w + 1) (resetTime w)).
      { unfold counted. rewrite Hr, Hw.
        assert (E : (at_ms r <? resetTime w) = true)
          by (apply Z.ltb_lt, Hin; [now left|exact Hr]).
        now rewrite E. }
      rewrite Hc. cbn [hits].
      destruct (IH ((ip r, mkWindow (hits w + 1) (resetTime w)) :: st)
                   (mkWindow (hits w + 1) (resetTime w))) as [IH1 IH2].
      { simpl. now rewrite Hr, jsstring_eqb_refl. }
      { intros r' Hr' Hip. cbn [resetTime]. apply Hin; [now right|exact Hip]. }
      split; [|exact IH2].
      unfold responses_to in IH1. cbn [map snd]. rewrite IH1. cbn [hits].
      unfold max_hits.
      destruct (hits w + 1 <=? 30) eqn:Hle.
      * apply Z.leb_le in Hle.
        replace (Z.to_nat (30 - hits w)) with (S (Z.to_nat (30 - (hits w + 1)))) by lia.
        reflexivity.
      * apply Z.leb_gt in Hle.
        replace (Z.to_nat (30 - hits w)) with O by lia.
        replace (Z.to_nat (30 - (hits w + 1))) with O by lia.
        reflexivity.
    + destruct (IH ((ip r, counted st (ip r) (at_ms r)) :: st) w) as [IH1 IH2].
      { simpl. now rewrite jsstring_eqb_sym, Hr. }
      { intros r' Hr' Hip. apply Hin; [now right|exact Hip]. }
      split; [exact IH1|exact IH2].
Qed.

(** C8: from the first request of a client in a new window on, of all the
    requests of that client before the window ends, the first 30 pass the
    limiter and every later one is answered 429 with the message of line
    27, whatever other clients send in between; a request of the client
    once the window has ended passes again. *)
Theorem thirty_requests_per_window (st : store) (who : jsstring)
    (first : request) (rest : list request) :
  ip first = who ->
  match find_window who st with
  | Some w => resetTime w <= at_ms first
  | None => True
  end ->
  (forall r, In r rest -> ip r = who -> at_ms r < at_ms first + windowMs) ->
  responses_to who (snd (serve_all st (first :: rest)))
  = first_pass 30 (filter (from_client who) (first :: rest))
  /\ (forall next : request,
        ip next = who -> at_ms first + windowMs <= at_ms next ->
        snd (serve (fst (serve_all st (first :: rest))) next) = handle (target next)).
Proof.
  intros Hfirst Hfresh Hin.
  assert (Hc : counted st (ip first) (at_ms first) = mkWindow 1 (at_ms first + windowMs)).
  { unfold counted. rewrite Hfirst.
    destruct (find_window who st) as [w|]; [|reflexivity].
    assert (E : (at_ms first <? resetTime w) = false) by (apply Z.ltb_ge; lia).
    now rewrite E. }
  destruct (serve_all_in_window who rest
              ((ip first, mkWindow 1 (at_ms first + windowMs)) :: st)
              (mkWindow 1 (at_ms first + windowMs))) as [H1 [w' [Hw' Hreset]]].
  { simpl. now rewrite Hfirst, jsstring_eqb_refl. }
  { exact Hin. }
  rewrite serve_all_cons, serve_eq, Hc. cbn [fst snd hits]. split.
  - unfold responses_to in *. cbn [filter map fst snd].
    assert (Hf : from_client who first = true)
      by (unfold from_client; rewrite Hfirst; apply jsstring_eqb_refl).
    rewrite Hf. cbn [map snd]. rewrite H1. reflexivity.
  - intros next Hnext Hlate. rewrite serve_eq. cbn [snd].
    assert (Hn : counted (fst (serve_all ((ip first, mkWindow 1 (at_ms first + windowMs)) :: st) rest))
                         (ip next) (at_ms next)
                 = mkWindow 1 (at_ms next + windowMs)).
    { unfold counted. rewrite Hnext, Hw'.
      assert (E : (at_ms next <? resetTime w') = false).
      { apply Z.ltb_ge. rewrite Hreset. cbn [resetTime]. lia. }
      now rewrite E. }
    rewrite Hn. reflexivity.
Qed.

End Handler.

(** * Examples, closed with [no_digits] *)

Arguments letters : simpl never.
Arguments spaces : simpl never.

Lemma Get_a_request_text (t : jsstring) :
  Get (a_request t) (str "text") = Some (VStr t).
Proof. reflexivity. Qed.

Lemma Get_a_request_language (t : jsstring) :
  Get (a_request t) (str "language") = Some VUndefined.
Proof. reflexivity. Qed.

(** A request with nothing but a text that is not empty and whose trimmed
    length is between 50 and 20000 is accepted, in English. *)
Lemma validate_a_request (t trimmed : jsstring) :
  t <> [] -> trim t = trimmed -> 50 <= jslength trimmed <= 20000 ->
  validate (a_request t) = Go (en, trimmed).
Proof.
  intros Hne Ht Hlen.
  rewrite validate_cases, Get_a_request_text, Get_a_request_language.
  destruct t as [|c s]; [congruence|]. rewrite Ht.
  assert (E1 : (jslength trimmed <? 50) = false) by (apply Z.ltb_ge; lia).
  assert (E2 : (jslength trimmed >? 20000) = false)
    by (rewrite Z.gtb_ltb; apply Z.ltb_ge; lia).
  now rewrite E1, E2.
Qed.

Lemma validate_fifty : validate (a_request fifty) = Go (en, fifty).
Proof. vm_compute. reflexivity. Qed.

Lemma letters_succ (n : Z) : 0 <= n -> letters (n + 1) = 97%N :: letters n.
Proof.
  intros Hn. unfold letters.
  replace (Z.to_nat (n + 1)) with (S (Z.to_nat n)) by lia. reflexivity.
Qed.

Lemma letters_length (n : Z) : 0 <= n -> jslength (letters n) = n.
Proof. intros Hn. unfold jslength, letters. rewrite repeat_length. lia. Qed.

Lemma jslength_app (a b : jsstring) : jslength (a ++ b) = jslength a + jslength b.
Proof. unfold jslength. rewrite length_app. lia. Qed.

(** ** C1 *)

(** C1, counterexample: the reply [{"rating":"Banana"}] is JSON, its
    rating is truthy and none of the three, and the 200 response carries
    it as it is. *)
Lemma rating_outside_the_three :
  JSON_parse banana_reply = Some (VObj [(str "rating", VStr (str "Banana"))])
  /\ summarize no_digits (a_request fifty) (answering banana_reply)
     = ok (VObj [(str "summary", VStr []); (str "bullets", VArr []);
                 (str "rating", VStr (str "Banana"))])
  /\ is_rating (VStr (str "Banana")) = false.
Proof. repeat split; vm_compute; reflexivity. Qed.

(** C1, witness: the reply of the recovery example is answered 200. *)
Lemma rating_of_a_200_response_witness :
  status (summarize no_digits (a_request fifty) (answering recovered_text)) = 200
  /\ exists parsed r,
       parsed_of (a_request fifty) (answering recovered_text) = Some parsed
       /\ Get parsed (str "rating") = Some r
       /\ field "rating" (summarize no_digits (a_request fifty) (answering recovered_text))
          = Some (sent (or_else r (VStr (str "Risky"))))
       /\ (is_rating (sent (or_else r (VStr (str "Risky")))) = true
           <-> ToBoolean r = false \/ is_rating r = true).
Proof.
  split; [vm_compute; reflexivity|].
  apply (rating_of_a_200_response no_digits (a_request fifty) (answering recovered_text)).
  vm_compute. reflexivity.
Defined.

(** A rating and a summary too large for a double are truthy, and are
    sent as [null]. *)
Example numbers_too_large_are_sent_as_null :
  summarize no_digits (a_request fifty)
    (answering (json_text "{'summary':-1e999,'rating':1e400}"))
  = mkResponse 200 (VObj [(str "summary", VNull); (str "bullets", VArr []);
                          (str "rating", VNull)]).
Proof. vm_compute. reflexivity. Qed.

(** ** C2 *)

(** C2, counterexample: normalisation throws on [null]; it returns a
    summary that is a number, so a result that is not well-formed, for
    [{"summary":7}]; and it throws on a bullet whose type is an object with
    a [toString] member. *)
Lemma normalize_throws_or_is_ill_formed :
  (JSON_parse null_reply = Some VNull /\ normalize no_digits VNull = Thrown)
  /\ (JSON_parse numeric_summary_reply = Some (VObj [(str "summary", seven)])
      /\ normalize no_digits (VObj [(str "summary", seven)])
         = Go (VObj [(str "summary", seven); (str "bullets", VArr []);
                     (str "rating", VStr (str "Risky"))])
      /\ well_formed (VObj [(str "summary", seven); (str "bullets", VArr []);
                            (str "rating", VStr (str "Risky"))]) = false)
  /\ (exists parsed, JSON_parse hidden_toString_reply = Some parsed
                     /\ normalize no_digits parsed = Thrown).
Proof.
  repeat split; try (vm_compute; reflexivity).
  eexists. split; vm_compute; reflexivity.
Qed.

(** C2, witness: the object of the recovery example. *)
Lemma normalize_defined_witness :
  exists s r bullets,
    Get recovered_result (str "summary") = Some s
    /\ Get recovered_result (str "rating") = Some r
    /\ bullets = map (described_bullet no_digits) (bullets_of recovered_result)
    /\ forallb is_bullet bullets = true
    /\ normalize no_digits recovered_result
       = Go (VObj [(str "summary", or_else s (VStr []));
                   (str "bullets", VArr bullets);
                   (str "rating", or_else r (VStr (str "Risky")))]).
Proof.
  apply (normalize_defined no_digits recovered_result).
  - discriminate.
  - discriminate.
  - vm_compute. reflexivity.
Defined.

(** ** C3 *)

(** C3, counterexample: fifty letters and 19951 spaces are 20001 code
    units, more than 20000, and the text is accepted and answered 200. *)
Lemma long_raw_text_is_accepted :
  jslength (fifty ++ spaces 19951) = 20001
  /\ validate (a_request (fifty ++ spaces 19951)) = Go (en, fifty)
  /\ summarize no_digits (a_request (fifty ++ spaces 19951)) (answering (str "{}"))
     = ok default_result.
Proof.
  assert (Hv : validate (a_request (fifty ++ spaces 19951)) = Go (en, fifty)).
  { apply validate_a_request.
    - change (fifty ++ spaces 19951)
        with (97%N :: (repeat 97%N 49 ++ spaces 19951)).
      discriminate.
    - transitivity (trim fifty); [|vm_compute; reflexivity].
      exact (trim_trailing_spaces 97 (repeat 97%N 49) (Z.to_nat 19951) eq_refl).
    - change (jslength fifty) with 50. lia. }
  split; [|split; [exact Hv|]].
  - rewrite jslength_app. change (jslength fifty) with 50.
    unfold spaces, jslength. rewrite repeat_length. lia.
  - rewrite summarize_cases, Hv. vm_compute. reflexivity.
Qed.

(** ** C4 *)

(** C4, counterexample: 19999 letters and an ampersand are accepted; the
    escaping writes the ampersand as an entity of five code units, the
    truncation cuts the entity after its first, and the sanitised text is
    the text itself, raw ampersand included. *)
Lemma safeText_keeps_an_ampersand :
  validate (a_request (letters 19999 ++ [38%N])) = Go (en, letters 19999 ++ [38%N])
  /\ safeText (letters 19999 ++ [38%N]) = letters 19999 ++ [38%N]
  /\ In 38%N (safeText (letters 19999 ++ [38%N])).
Proof.
  assert (Hs : safeText (letters 19999 ++ [38%N]) = letters 19999 ++ [38%N]).
  { unfold safeText, slice0, collapse_spaces.
    rewrite escape_app. unfold letters at 1. rewrite escape_letters.
    rewrite collapse_letters by lia.
    change (collapse_from false (escape [38%N])) with (str "&amp;").
    rewrite firstn_app, repeat_length.
    rewrite firstn_all2 by (rewrite repeat_length; lia).
    replace (Z.to_nat 20000 - Z.to_nat 19999)%nat with 1%nat by lia.
    reflexivity. }
  split; [|split; [exact Hs|]].
  - apply validate_a_request.
    + change 19999 with (19998 + 1). rewrite letters_succ by lia. discriminate.
    + change 19999 with (19998 + 1). rewrite letters_succ by lia.
      now apply (trim_fixed 97 38 (letters 19998)).
    + rewrite jslength_app, letters_length by lia. change (jslength [38%N]) with 1. lia.
  - rewrite Hs. apply in_or_app. right. now left.
Qed.

(** ** C5 *)

(** The recovery example of C5 on an accepted request. *)
Example recovery_example :
  summarize no_digits (a_request fifty) (answering wrapped_reply) = ok recovered_result.
Proof. vm_compute. reflexivity. Qed.

(** A span that holds two objects is not JSON: the known limit of the
    fallback. *)
Example two_objects_are_not_recovered :
  match_braces (json_text "a {'x':1} b {'y':2} c") = Some (json_text "{'x':1} b {'y':2}")
  /\ summarize no_digits (a_request fifty) (answering (json_text "a {'x':1} b {'y':2} c"))
     = internal_server_error.
Proof. split; vm_compute; reflexivity. Qed.

(** ** C6 *)

(** C6, witness: a sentence with no brace. *)
Lemma unparseable_reply_is_500_witness :
  summarize no_digits (a_request fifty) (answering apology) = internal_server_error
  /\ status (summarize no_digits (a_request fifty) (answering apology)) = 500
  /\ body (summarize no_digits (a_request fifty) (answering apology))
     = VObj [(str "error", VStr (str "Internal server error"))].
Proof.
  apply (unparseable_reply_is_500 no_digits (a_request fifty) (answering apology)
           en fifty apology).
  - exact validate_fifty.
  - reflexivity.
  - left. intro H. vm_compute in H.
    repeat (destruct H as [H|H]; [discriminate H|]). exact H.
  - vm_compute. reflexivity.
Defined.

(** ** C7 *)

(** The bullets of [bullets_reply], as the handler returns them. *)
Example bullets_example :
  field "bullets" (summarize no_digits (a_request fifty) (answering bullets_reply))
  = Some (VArr [bullet "pro" "a"; bullet "warning" ""; bullet "con" "";
                bullet "con" "b"]).
Proof. vm_compute. reflexivity. Qed.

(** C7, witness: the same reply. *)
Lemma bullets_of_a_200_response_witness :
  exists parsed,
    parsed_of (a_request fifty) (answering bullets_reply) = Some parsed
    /\ field "bullets" (summarize no_digits (a_request fifty) (answering bullets_reply))
       = Some (VArr (map (described_bullet no_digits) (bullets_of parsed)))
    /\ forallb is_bullet (map (described_bullet no_digits) (bullets_of parsed)) = true
    /\ ((forall items, Get parsed (str "bullets") <> Some (VArr items)) ->
        field "bullets" (summarize no_digits (a_request fifty) (answering bullets_reply))
        = Some (VArr [])).
Proof.
  apply (bullets_of_a_200_response no_digits (a_request fifty) (answering bullets_reply)).
  vm_compute. reflexivity.
Defined.

(** ** C8 *)

(** Thirty-one requests of one client within a second, on a server that
    has seen none: thirty are served, the last is refused. *)
Example thirty_one_requests :
  responses_to client (snd (serve_all no_digits [] (ping 0 :: thirty_more)))
  = repeat pong 30 ++ [too_many_requests].
Proof. vm_compute. reflexivity. Qed.

(** C8, witness: the same requests, and one a minute later. *)
Lemma thirty_requests_per_window_witness :
  responses_to client (snd (serve_all no_digits [] (ping 0 :: thirty_more)))
  = first_pass no_digits 30 (filter (from_client client) (ping 0 :: thirty_more))
  /\ (forall next : request,
        ip next = client -> at_ms (ping 0) + windowMs <= at_ms next ->
        snd (serve no_digits (fst (serve_all no_digits [] (ping 0 :: thirty_more))) next)
        = handle no_digits (target next)).
Proof.
  apply (thirty_requests_per_window no_digits [] client (ping 0) thirty_more).
  - reflexivity.
  - exact I.
  - intros r Hin _. apply repeat_spec in Hin. subst r. reflexivity.
Defined.

(** ** C9 *)

(** C9, counterexample: the empty text has trimmed length 0, below 50, and
    is refused as a missing text, not as a short one. *)
Lemma empty_text_is_not_too_short :
  jslength (trim []) = 0
  /\ summarize no_digits (a_request []) (answering (str "{}")) = invalid_payload
  /\ invalid_payload <> text_too_short.
Proof.
  repeat split; try (vm_compute; reflexivity).
  intro H. apply (f_equal body) in H. vm_compute in H. discriminate H.
Qed.

(** The two sides of the boundary of C9. *)
Example forty_nine_and_fifty :
  summarize no_digits (a_request (repeat 97%N 49)) (answering (str "{}")) = text_too_short
  /\ summarize no_digits (a_request fifty) (answering (str "{}")) = ok default_result.
Proof. split; vm_compute; reflexivity. Qed.

(** ** C10 *)

(** C10, witness: the empty text. *)
Lemma falsy_text_is_invalid_payload_witness :
  summarize no_digits (a_request []) (answering (str "{}")) = invalid_payload
  /\ summarize no_digits (a_request []) (answering (str "{}")) <> text_too_short.
Proof.
  apply (falsy_text_is_invalid_payload no_digits (a_request []) (VStr [])).
  - reflexivity.
  - reflexivity.
Defined.

(** * Further properties of the code *)

(** ** Trimming *)

Lemma drop_spaces_head (s r : jsstring) (c : N) :
  drop_spaces s = c :: r -> is_space c = false.
Proof.
  induction s as [|x s IH]; simpl; [discriminate|].
  destruct (is_space x) eqn:E; [exact IH|]. now intros [= <- _].
Qed.

Lemma drop_spaces_snoc (l : jsstring) (x : N) :
  is_space x = false -> drop_spaces (l ++ [x]) = drop_spaces l ++ [x].
Proof.
  intros Hx. induction l as [|c l IH]; simpl.
  - now rewrite Hx.
  - destruct (is_space c); [exact IH|reflexivity].
Qed.

Lemma drop_spaces_nil_iff (s : jsstring) : drop_spaces s = [] <-> blank s = true.
Proof.
  unfold blank. induction s as [|c s IH]; simpl.
  - tauto.
  - destruct (is_space c); simpl; [exact IH|]. split; discriminate.
Qed.

Lemma drop_spaces_In (x : N) (s : jsstring) : In x (drop_spaces s) -> In x s.
Proof.
  induction s as [|c s IH]; simpl; [tauto|].
  destruct (is_space c); [auto|]. simpl. tauto.
Qed.

Lemma trim_In (x : N) (s : jsstring) : In x (trim s) -> In x s.
Proof.
  unfold trim. intros H. apply in_rev in H. apply drop_spaces_In in H.
  apply in_rev in H. now apply drop_spaces_In in H.
Qed.

Lemma blank_rev (s : jsstring) : blank (rev s) = blank s.
Proof.
  unfold blank. destruct (forallb is_space s) eqn:E.
  - apply forallb_forall. intros x Hx. apply in_rev in Hx.
    now apply (proj1 (forallb_forall _ _) E).
  - destruct (forallb is_space (rev s)) eqn:E'; [|reflexivity].
    rewrite <- E. symmetry. apply forallb_forall. intros x Hx.
    apply (proj1 (forallb_forall _ _) E'). now apply in_rev in Hx.
Qed.

(** The trim of a text is empty exactly when the text is blank. *)
Lemma trim_nil_iff (s : jsstring) : trim s = [] <-> blank s = true.
Proof.
  unfold trim. split.
  - intros H. apply (f_equal (@rev N)) in H. rewrite rev_involutive in H.
    simpl in H. apply drop_spaces_nil_iff in H. rewrite blank_rev in H.
    destruct (drop_spaces s) as [|c r] eqn:E.
    + now apply drop_spaces_nil_iff.
    + apply drop_spaces_head in E. unfold blank in H. simpl in H.
      rewrite E in H. discriminate H.
  - intros H. apply drop_spaces_nil_iff in H. now rewrite H.
Qed.

Lemma trim_no_trailing (s r : jsstring) (c : N) :
  trim s = r ++ [c] -> is_space c = false.
Proof.
  unfold trim. intros H. apply (f_equal (@rev N)) in H.
  rewrite rev_involutive, rev_app_distr in H. simpl in H.
  now apply drop_spaces_head in H.
Qed.

Lemma trim_no_leading (s r : jsstring) (c : N) :
  trim s = c :: r -> is_space c = false.
Proof.
  unfold trim. destruct (drop_spaces s) as [|x u] eqn:E.
  - simpl. discriminate.
  - pose proof (drop_spaces_head _ _ _ E) as Hx.
    simpl rev at 2. rewrite drop_spaces_snoc by exact Hx.
    rewrite rev_app_distr. simpl. now intros [= <- _].
Qed.

(** A text with no white space at either end is its own trim. *)
Lemma trim_clean (s : jsstring) :
  (forall c r, s = c :: r -> is_space c = false) ->
  (forall r c, s = r ++ [c] -> is_space c = false) ->
  trim s = s.
Proof.
  intros Hhead Hlast. destruct s as [|c s]; [reflexivity|].
  pose proof (Hhead c s eq_refl) as Hc.
  destruct (rev s) as [|d m] eqn:E.
  - apply (f_equal (@rev N)) in E. rewrite rev_involutive in E. subst s.
    unfold trim. simpl. rewrite Hc. simpl. now rewrite Hc.
  - apply (f_equal (@rev N)) in E. rewrite rev_involutive in E. simpl in E.
    subst s. apply trim_fixed; [exact Hc|].
    apply (Hlast (c :: rev m) d). reflexivity.
Qed.

Lemma trim_idempotent (s : jsstring) : trim (trim s) = trim s.
Proof.
  apply trim_clean.
  - intros c r. apply trim_no_leading.
  - intros r c. apply trim_no_trailing.
Qed.

(** ** The sanitised text *)

Lemma entity_length (c : N) :
  (1 <= List.length (entity c) <= 6)%nat.
Proof. entity_cases c; vm_compute; split; repeat constructor. Qed.

(** No entity has a quote, an apostrophe, a bracket, a slash, a backslash
    or a backtick in it, and no other character is one. *)
Lemma entity_without (c x : N) :
  In x (entity c) -> In x [34; 39; 60; 62; 47; 92; 96]%N -> False.
Proof.
  intros Hin Hx.
  assert (Hlit : forall l, In x l ->
            forallb (fun y => negb (existsb (N.eqb y) [34; 39; 60; 62; 47; 92; 96]%N)) l = true ->
            False).
  { intros l Hl Hall. apply (proj1 (forallb_forall _ _) Hall) in Hl.
    apply negb_true_iff in Hl.
    assert (E : existsb (N.eqb x) [34; 39; 60; 62; 47; 92; 96]%N = true).
    { apply existsb_exists. exists x. split; [exact Hx|apply N.eqb_refl]. }
    congruence. }
  revert Hin. entity_cases c; intros Hin;
    try (apply (Hlit _ Hin); vm_compute; reflexivity).
  destruct Hin as [<-|[]]. simpl in Hx. intuition congruence.
Qed.

Lemma escape_without (s : jsstring) (x : N) :
  In x [34; 39; 60; 62; 47; 92; 96]%N -> ~ In x (escape s).
Proof.
  intros Hx Hin. rewrite escape_flat_map in Hin.
  apply in_flat_map in Hin. destruct Hin as [c [_ Hc]].
  exact (entity_without c x Hc Hx).
Qed.

Lemma single_spaced_collapse (s : jsstring) (in_run : bool) :
  single_spaced in_run (collapse_from in_run s) = true.
Proof.
  revert in_run. induction s as [|c r IH]; intros in_run; [reflexivity|].
  simpl. destruct (is_space c) eqn:Ec.
  - destruct in_run; [apply IH|].
    change (single_spaced false (32%N :: collapse_from true r))
      with (single_spaced true (collapse_from true r)).
    apply IH.
  - simpl. rewrite Ec. apply IH.
Qed.

Lemma single_spaced_firstn (n : nat) (s : jsstring) (after_space : bool) :
  single_spaced after_space s = true ->
  single_spaced after_space (firstn n s) = true.
Proof.
  revert s after_space. induction n as [|n IH]; intros s b; [reflexivity|].
  destruct s as [|c r]; [reflexivity|]. simpl.
  destruct (is_space c).
  - intros H. apply andb_prop in H. destruct H as [H1 H2]. rewrite H1.
    simpl. now apply IH.
  - apply IH.
Qed.

Lemma collapse_single_spaced (s : jsstring) (in_run : bool) :
  single_spaced in_run s = true -> collapse_from in_run s = s.
Proof.
  revert in_run. induction s as [|c r IH]; intros in_run; [reflexivity|].
  simpl. destruct (is_space c).
  - intros H. apply andb_prop in H. destruct H as [H1 H2].
    apply andb_prop in H1. destruct H1 as [Hc Hrun].
    apply N.eqb_eq in Hc. subst c. apply negb_true_iff in Hrun. subst in_run.
    now rewrite (IH true H2).
  - intros H. now rewrite (IH false H).
Qed.

Lemma escape_plain (s : jsstring) :
  (forall c, In c escaped_characters -> ~ In c s) -> escape s = s.
Proof.
  intros H. rewrite escape_flat_map. induction s as [|c s IH]; [reflexivity|].
  simpl. rewrite entity_plain.
  - simpl. f_equal. apply IH. intros x Hx Hin. apply (H x Hx). now right.
  - intros Hc. apply (H c Hc). now left.
Qed.

Lemma entity_head (c : N) :
  is_space c = false ->
  exists h rest, entity c = h :: rest /\ is_space h = false.
Proof.
  intros Hc. entity_cases c;
    try (eexists; eexists; split; [reflexivity|vm_compute; reflexivity]).
  exists c, []. auto.
Qed.

(** X1: in the sanitised text every white space is a single space
    (U+0020): tabs, line breaks and runs of spaces of the input are gone;
    and the sanitised text of a trimmed text does not start with one. *)
Theorem safeText_is_single_spaced (text : jsstring) :
  single_spaced false (safeText text) = true
  /\ (forall c r, safeText (trim text) = c :: r -> is_space c = false).
Proof.
  split.
  - unfold safeText, slice0, collapse_spaces.
    apply single_spaced_firstn, single_spaced_collapse.
  - intros c r. unfold safeText, slice0, collapse_spaces.
    destruct (trim text) as [|x u] eqn:E; [discriminate|].
    apply trim_no_leading in E.
    change (x :: u) with ([x] ++ u). rewrite escape_app, escape_one.
    destruct (entity_head x E) as [h [rest [-> Hh]]].
    simpl app. simpl collapse_from. rewrite Hh.
    replace (Z.to_nat 20000) with (S (Z.to_nat 19999)) by lia.
    cbn [firstn]. intros H.
    assert (E' : h = c) by exact (f_equal (hd 0%N) H).
    now rewrite <- E'.
Qed.

(** X2: the sanitised text has no double quote, apostrophe, slash,
    backslash or backtick in it (nor '<' or '>'): each is written as an
    entity, and neither the entities nor the collapsing of white space
    bring one back. *)
Theorem safeText_without_quotes (text : jsstring) :
  forallb (fun x => negb (existsb (N.eqb x) (safeText text)))
          [34; 39; 60; 62; 47; 92; 96]%N = true.
Proof.
  apply forallb_forall. intros x Hx. apply negb_true_iff.
  destruct (existsb (N.eqb x) (safeText text)) eqn:E; [|reflexivity].
  apply existsb_exists in E. destruct E as [y [Hin Hxy]].
  apply N.eqb_eq in Hxy. subst y.
  apply safeText_In in Hin. destruct Hin as [->|Hin].
  - simpl in Hx. intuition discriminate.
  - now destruct (escape_without text x Hx).
Qed.

(** X3: a text without any of the eight escaped characters, in which
    every white space is a single space, and of at most 20000 code units,
    is its own sanitised text. *)
Theorem safeText_of_plain_text (text : jsstring) :
  forallb (fun c => negb (existsb (N.eqb c) escaped_characters)) text = true ->
  single_spaced false text = true ->
  jslength text <= 20000 ->
  safeText text = text.
Proof.
  intros Hplain Hspaced Hlen. unfold safeText, slice0, collapse_spaces.
  rewrite escape_plain.
  - rewrite (collapse_single_spaced _ _ Hspaced).
    apply firstn_all2. unfold jslength in Hlen. lia.
  - intros c Hc Hin. apply (proj1 (forallb_forall _ _) Hplain) in Hin.
    apply negb_true_iff in Hin.
    assert (E : existsb (N.eqb c) escaped_characters = true).
    { apply existsb_exists. exists c. split; [exact Hc|apply N.eqb_refl]. }
    congruence.
Qed.

Lemma safeText_of_plain_text_witness : safeText fifty = fifty.
Proof.
  apply (safeText_of_plain_text fifty).
  - vm_compute. reflexivity.
  - vm_compute. reflexivity.
  - vm_compute. discriminate.
Defined.

Lemma flat_map_entity_length (s : jsstring) :
  (List.length s <= List.length (flat_map entity s) <= 6 * List.length s)%nat.
Proof.
  induction s as [|c s IH]; simpl; [lia|].
  rewrite length_app. pose proof (entity_length c). lia.
Qed.

Lemma validate_Go (req_body : value) (lang : language) (trimmed : jsstring) :
  validate req_body = Go (lang, trimmed) ->
  exists c s l,
    Get req_body (str "text") = Some (VStr (c :: s))
    /\ Get req_body (str "language") = Some l
    /\ lang = lang_of l /\ trimmed = trim (c :: s)
    /\ 50 <= jslength trimmed <= 20000.
Proof.
  rewrite validate_cases.
  destruct (Get req_body (str "text")) as [[| | | |[|c s]| |]|];
    destruct (Get req_body (str "language")) as [l|]; try discriminate.
  destruct (jslength (trim (c :: s)) <? 50) eqn:E1; [discriminate|].
  destruct (jslength (trim (c :: s)) >? 20000) eqn:E2; [discriminate|].
  intros [= <- <-]. exists c, s, l. apply Z.ltb_ge in E1.
  rewrite Z.gtb_ltb in E2. apply Z.ltb_ge in E2. repeat split; auto.
Qed.

(** X4: escaping writes every character once, as itself or as its
    entity (the ampersand of an entity is not escaped again), so the
    escaped text of an accepted request is no shorter than the trimmed
    text and has at most 120000 code units before it is truncated. *)
Theorem escaped_text_is_bounded (req_body : value) (lang : language)
    (trimmed : jsstring) :
  validate req_body = Go (lang, trimmed) ->
  escape trimmed = flat_map entity trimmed
  /\ jslength trimmed <= jslength (escape trimmed) <= 120000.
Proof.
  intros Hv. destruct (validate_Go _ _ _ Hv) as [c [s [l [_ [_ [_ [_ Hlen]]]]]]].
  split; [apply escape_flat_map|].
  rewrite escape_flat_map. unfold jslength in *.
  pose proof (flat_map_entity_length trimmed). lia.
Qed.

Lemma escaped_text_is_bounded_witness :
  escape fifty = flat_map entity fifty
  /\ jslength fifty <= jslength (escape fifty) <= 120000.
Proof.
  apply (escaped_text_is_bounded (a_request fifty) en fifty).
  exact validate_fifty.
Defined.

(** ** The handler *)

Ltac distinct :=
  let H := fresh in
  intro H; apply (f_equal (fun r => (status r, body r))) in H;
  vm_compute in H; discriminate H.

Ltac one_of_four :=
  first [ left; reflexivity
        | right; left; reflexivity
        | right; right; left; reflexivity
        | right; right; right; left; reflexivity ].

Section MoreOfTheHandler.

Variable render : number -> jsstring.

Lemma respond_returns (reply : completion) :
  respond render reply = Thrown
  \/ exists c t parsed out,
       reply = Answered (Some (c :: t))
       /\ parse_reply (c :: t) = Some parsed
       /\ normalize render parsed = Go out
       /\ respond render reply = Go (ok out).
Proof.
  destruct reply as [|[[|c t]|]]; simpl; auto.
  destruct (parse_reply (c :: t)) as [parsed|] eqn:Ep; simpl; auto.
  destruct (normalize_cases render parsed) as [E|[out E]]; rewrite E; simpl; auto.
  right. exists c, t, parsed, out. auto.
Qed.

Lemma or_else_truthy (v d : value) : ToBoolean d = true -> ToBoolean (or_else v d) = true.
Proof. unfold or_else. destruct (ToBoolean v) eqn:E; auto. Qed.

Lemma sent_truthy (v : value) :
  ToBoolean v = true -> ToBoolean (sent v) = true \/ sent v = VNull.
Proof.
  destruct v as [| |b|n|t|items|members]; simpl; auto; try discriminate.
  intros H. destruct (number_is_infinite n); [now right|].
  apply negb_true_iff in H. rewrite H. left. simpl. now rewrite H.
Qed.

(** X5: POST /summarize has five answers and no other: the three 400
    bodies, the 500 body, which says nothing of what failed, and a 200
    body with exactly the members summary, bullets and rating, where the
    bullets are well-formed, the rating is truthy or [null] (a number that
    is not finite) and the summary is truthy, [null] or the empty string. *)
Theorem summarize_answers (req_body : value)
    (callOpenAIChat : language -> jsstring -> completion) :
  summarize render req_body callOpenAIChat = invalid_payload
  \/ summarize render req_body callOpenAIChat = text_too_short
  \/ summarize render req_body callOpenAIChat = text_too_long
  \/ summarize render req_body callOpenAIChat = internal_server_error
  \/ exists summary bullets rating,
       status (summarize render req_body callOpenAIChat) = 200
       /\ body (summarize render req_body callOpenAIChat)
          = VObj [(str "summary", summary); (str "bullets", VArr bullets);
                  (str "rating", rating)]
       /\ forallb is_bullet bullets = true
       /\ (ToBoolean rating = true \/ rating = VNull)
       /\ (ToBoolean summary = true \/ summary = VNull \/ summary = VStr []).
Proof.
  rewrite summarize_cases, validate_cases.
  destruct (Get req_body (str "text")) as [[| | | |[|c s]| |]|];
    destruct (Get req_body (str "language")) as [l|]; try one_of_four.
  destruct (jslength (trim (c :: s)) <? 50); [one_of_four|].
  destruct (jslength (trim (c :: s)) >? 20000); [one_of_four|].
  destruct (respond_returns (callOpenAIChat (lang_of l) (safeText (trim (c :: s)))))
    as [E|[u [t [parsed [out [_ [_ [Hn E]]]]]]]]; rewrite E; [one_of_four|].
  destruct (normalize_returns render _ _ Hn) as [sm [r [_ [_ ->]]]].
  do 4 right.
  exists (sent (or_else sm (VStr []))), (map (described_bullet render) (bullets_of parsed)),
         (sent (or_else r (VStr (str "Risky")))).
  split; [reflexivity|]. split.
  - unfold ok. cbn [body].
    rewrite sent_three, sent_described_bullets;
      try (apply or_else_defined; discriminate); try discriminate.
    reflexivity.
  - split; [apply described_bullets_are_bullets|]. split.
    + apply sent_truthy. now apply or_else_truthy.
    + unfold or_else. destruct (ToBoolean sm) eqn:Esm.
      * destruct (sent_truthy sm Esm); auto.
      * auto.
Qed.

(** X6: a request answered 400 is answered without the completion
    service: the answer is the same whatever the service would say. *)
Theorem rejected_request_ignores_upstream (req_body : value)
    (callOpenAIChat other : language -> jsstring -> completion) :
  status (summarize render req_body callOpenAIChat) = 400 ->
  summarize render req_body other = summarize render req_body callOpenAIChat.
Proof.
  rewrite !summarize_cases.
  destruct (validate req_body) as [[lang trimmed]|r|]; try reflexivity.
  destruct (respond_cases render (callOpenAIChat lang (safeText trimmed)))
    as [E|[out E]]; rewrite E; intros H; discriminate H.
Qed.

(** X7: the answer is 400 "Invalid payload: text required" exactly when
    the body has a [text] that is not a string with at least one code
    unit: missing, of another type, or empty. *)
Theorem invalid_payload_iff (req_body : value)
    (callOpenAIChat : language -> jsstring -> completion) :
  summarize render req_body callOpenAIChat = invalid_payload
  <-> exists text, Get req_body (str "text") = Some text
                   /\ forall c s, text <> VStr (c :: s).
Proof.
  split.
  - intros H. rewrite summarize_cases, validate_cases in H.
    destruct (Get req_body (str "text")) as [text|]; cbv beta iota in H;
      [|revert H; distinct].
    exists text. split; [reflexivity|]. intros c s ->. cbv beta iota in H.
    destruct (Get req_body (str "language")) as [l|]; cbv beta iota in H;
      [|revert H; distinct].
    destruct (jslength (trim (c :: s)) <? 50); [revert H; distinct|].
    destruct (jslength (trim (c :: s)) >? 20000); [revert H; distinct|].
    destruct (respond_cases render (callOpenAIChat (lang_of l) (safeText (trim (c :: s)))))
      as [E|[out E]]; rewrite E in H; revert H.
    + apply error_500_not_400.
    + apply ok_not_400.
  - intros [text [Ht Hnot]].
    destruct (Get_defined _ _ (str "language") _ Ht) as [l Hl].
    rewrite summarize_cases, validate_cases, Ht, Hl.
    destruct text as [| | | |[|c s]| |]; try reflexivity.
    now destruct (Hnot c s).
Qed.

(** X8: the answer is the 500 body exactly when the body is [null] or
    missing, or the request is accepted and the completion service fails,
    answers no text or an empty one, answers a text that neither attempt
    parses, or answers one whose normalisation throws. *)
Theorem internal_server_error_iff (req_body : value)
    (callOpenAIChat : language -> jsstring -> completion) :
  summarize render req_body callOpenAIChat = internal_server_error
  <-> Get req_body (str "text") = None
      \/ exists lang trimmed,
           validate req_body = Go (lang, trimmed)
           /\ match callOpenAIChat lang (safeText trimmed) with
              | Failed | Answered None | Answered (Some []) => True
              | Answered (Some textResp) =>
                  match parse_reply textResp with
                  | None => True
                  | Some parsed => normalize render parsed = Thrown
                  end
              end.
Proof.
  split.
  - intros H. rewrite summarize_cases in H.
    destruct (validate req_body) as [[lang trimmed]|r|] eqn:Hv.
    + right. exists lang, trimmed. split; [reflexivity|].
      destruct (callOpenAIChat lang (safeText trimmed)) as [|[[|c t]|]]; auto.
      simpl in H. destruct (parse_reply (c :: t)) as [parsed|]; auto.
      simpl in H.
      destruct (normalize_cases render parsed) as [E|[out E]]; [exact E|].
      rewrite E in H. simpl in H. now destruct (ok_not_500 out).
    + rewrite validate_cases in Hv.
      destruct (Get req_body (str "text")) as [[| | | |[|c s]| |]|]; auto;
        destruct (Get req_body (str "language")) as [l|]; try discriminate Hv;
        try (injection Hv as <-; revert H; distinct).
      destruct (jslength (trim (c :: s)) <? 50);
        [injection Hv as <-; revert H; distinct|].
      destruct (jslength (trim (c :: s)) >? 20000); [|discriminate Hv].
      injection Hv as <-; revert H; distinct.
    + destruct (Get req_body (str "text")) as [text|] eqn:Ht; [|now left].
      exfalso. destruct (Get_defined _ _ (str "language") _ Ht) as [l Hl].
      rewrite validate_cases, Ht, Hl in Hv.
      destruct text as [| | | |[|c s]| |]; try discriminate Hv.
      destruct (jslength (trim (c :: s)) <? 50); [discriminate Hv|].
      destruct (jslength (trim (c :: s)) >? 20000); discriminate Hv.
  - intros [Ht|[lang [trimmed [Hv H]]]].
    + rewrite summarize_cases, validate_cases, Ht. reflexivity.
    + rewrite summarize_cases, Hv.
      destruct (callOpenAIChat lang (safeText trimmed)) as [|[[|c t]|]];
        try reflexivity.
      simpl. destruct (parse_reply (c :: t)) as [parsed|]; [|reflexivity].
      simpl. now rewrite H.
Qed.

(** X9: a text of white space only is answered 400 "Text too short",
    whatever its length. *)
Theorem blank_text_is_too_short (req_body : value) (c : N) (s : jsstring)
    (callOpenAIChat : language -> jsstring -> completion) :
  Get req_body (str "text") = Some (VStr (c :: s)) ->
  blank (c :: s) = true ->
  summarize render req_body callOpenAIChat = text_too_short.
Proof.
  intros Ht Hblank.
  destruct (Get_defined _ _ (str "language") _ Ht) as [l Hl].
  rewrite summarize_cases, validate_cases, Ht, Hl.
  rewrite (proj2 (trim_nil_iff (c :: s)) Hblank). reflexivity.
Qed.

(** X10: in every 200 response the summary is the summary of the parsed
    reply when that is truthy, of whatever type it is, and the empty
    string otherwise, as [JSON.stringify] writes it: a number that is not
    finite is written [null]. *)
Theorem summary_of_a_200_response (req_body : value)
    (callOpenAIChat : language -> jsstring -> completion) :
  status (summarize render req_body callOpenAIChat) = 200 ->
  exists parsed s,
    parsed_of req_body callOpenAIChat = Some parsed
    /\ Get parsed (str "summary") = Some s
    /\ field "summary" (summarize render req_body callOpenAIChat)
       = Some (sent (or_else s (VStr []))).
Proof.
  intros H200.
  destruct (summarize_200 render _ _ H200) as [parsed [out [Hp [Hn Hs]]]].
  destruct (normalize_returns render _ _ Hn) as [s [r [Hsum [Hr Hout]]]].
  exists parsed, s. repeat split; try assumption.
  rewrite Hs, Hout. apply field_of_result.
Qed.

(** X11: an element of [bullets] that is not an object (a string, a
    number, [null], an array) is not dropped and does not fail the
    request: it is returned as a bullet of type con with an empty text. *)
Theorem bullet_of_a_non_object (b : value) :
  is_object b = false -> cleanBullet render b = Go (bullet "con" "").
Proof.
  intros Hb. rewrite cleanBullet_eq.
  assert (H : forall k, ToBoolean (member k b) = false).
  { intros k. unfold member, and_get.
    destruct (ToBoolean b) eqn:E; [|exact E].
    destruct b; simpl in *; try discriminate; reflexivity. }
  now rewrite !H.
Qed.

(** X12: a JSON object with prose around it is recovered, provided the
    prose before has no '{' and the prose after has no '}': the reply is
    parsed, as the object unless the whole reply happens to be JSON. *)
Theorem wrapped_object_is_recovered (pre inner post : jsstring) (parsed : value) :
  ~ In 123%N pre -> ~ In 125%N post ->
  JSON_parse (123%N :: inner ++ [125%N]) = Some parsed ->
  parse_reply (pre ++ (123%N :: inner ++ [125%N]) ++ post)
  = match JSON_parse (pre ++ (123%N :: inner ++ [125%N]) ++ post) with
    | Some whole => Some whole
    | None => Some parsed
    end.
Proof.
  intros Hpre Hpost Hobj. unfold parse_reply.
  destruct (JSON_parse (pre ++ (123%N :: inner ++ [125%N]) ++ post)); [reflexivity|].
  assert (E : match_braces (pre ++ (123%N :: inner ++ [125%N]) ++ post)
              = Some (123%N :: inner ++ [125%N])).
  { apply match_braces_Some. exists pre, inner, post. auto. }
  now rewrite E.
Qed.

(** X13: white space around the text does not change the answer: two
    bodies whose texts have the same trim, and that name the same
    language, are answered alike. *)
Theorem padding_is_ignored (body1 body2 : value) (c1 c2 : N) (s1 s2 : jsstring)
    (callOpenAIChat : language -> jsstring -> completion) :
  Get body1 (str "text") = Some (VStr (c1 :: s1)) ->
  Get body2 (str "text") = Some (VStr (c2 :: s2)) ->
  trim (c1 :: s1) = trim (c2 :: s2) ->
  Get body1 (str "language") = Get body2 (str "language") ->
  summarize render body1 callOpenAIChat = summarize render body2 callOpenAIChat.
Proof.
  intros H1 H2 Ht Hl.
  rewrite !summarize_cases, !validate_cases, H1, H2, Hl, Ht. reflexivity.
Qed.

End MoreOfTheHandler.

(** ** The allowed origins and the CORS check *)

Lemma split_on_no_separator (c : N) (s p : jsstring) :
  In p (split_on c s) -> ~ In c p.
Proof.
  revert p. induction s as [|x s IH]; intros p; simpl.
  - intros [<-|[]]. tauto.
  - destruct (N.eqb_spec x c) as [E|E].
    + intros [<-|H]; [tauto|now apply IH].
    + destruct (split_on c s) as [|q qs].
      * intros [<-|[]]. simpl. intuition congruence.
      * intros [<-|H].
        -- simpl. intros [H|H]; [congruence|]. apply (IH q); [now left|exact H].
        -- apply IH. now right.
Qed.

Lemma split_on_plain (c : N) (a : jsstring) : ~ In c a -> split_on c a = [a].
Proof.
  induction a as [|x a IH]; intros H; [reflexivity|]. simpl.
  destruct (N.eqb_spec x c) as [E|E].
  - destruct H. now left.
  - rewrite IH; [reflexivity|]. intros Hin. apply H. now right.
Qed.

Lemma split_on_app (c : N) (a rest : jsstring) :
  ~ In c a -> split_on c (a ++ c :: rest) = a :: split_on c rest.
Proof.
  induction a as [|x a IH]; intros H; simpl.
  - now rewrite N.eqb_refl.
  - destruct (N.eqb_spec x c) as [E|E].
    + destruct H. now left.
    + rewrite IH; [reflexivity|]. intros Hin. apply H. now right.
Qed.

Lemma split_join_commas (pieces : list jsstring) :
  pieces <> [] -> Forall (fun p => ~ In 44%N p) pieces ->
  split_on 44 (join_commas pieces) = pieces.
Proof.
  intros Hne Hall. revert Hne.
  induction Hall as [|p rest Hp Hrest IH]; intros Hne; [now destruct Hne|].
  destruct rest as [|q rest].
  - simpl. now apply split_on_plain.
  - change (join_commas (p :: q :: rest)) with (p ++ 44%N :: join_commas (q :: rest)).
    rewrite split_on_app by exact Hp. f_equal. apply IH. discriminate.
Qed.

Lemma allowed_In_iff (env : option jsstring) (o : jsstring) :
  In o (ALLOWED_ORIGINS env)
  <-> o <> [] /\ exists p, In p (split_on 44 (match env with Some s => s | None => [] end))
                           /\ trim p = o.
Proof.
  unfold ALLOWED_ORIGINS. rewrite filter_In, in_map_iff. split.
  - intros [[p [Hp Hin]] Hne]. split; [|eauto]. now destruct o.
  - intros [Hne [p [Hin Hp]]]. split; [eauto|]. now destruct o.
Qed.

Lemma allowed_nil_iff (env : option jsstring) :
  ALLOWED_ORIGINS env = []
  <-> forall p, In p (split_on 44 (match env with Some s => s | None => [] end)) ->
                blank p = true.
Proof.
  unfold ALLOWED_ORIGINS.
  induction (split_on 44 (match env with Some s => s | None => [] end)) as [|q qs IH];
    simpl.
  - tauto.
  - destruct (trim q) as [|c r] eqn:E; simpl.
    + apply trim_nil_iff in E. rewrite IH. split.
      * intros H p [<-|Hp]; auto.
      * intros H p Hp. apply H. now right.
    + split; [discriminate|]. intros H.
      assert (Hq : trim q = []) by (apply trim_nil_iff, H; now left).
      congruence.
Qed.

(** X14: every allowed origin read from the configuration is a usable
    one: not empty, with no white space at either end and no comma. *)
Theorem allowed_origins_are_listable (env : option jsstring) :
  Forall listable (ALLOWED_ORIGINS env).
Proof.
  apply Forall_forall. intros o Ho. apply allowed_In_iff in Ho.
  destruct Ho as [Hne [p [Hp <-]]]. repeat split.
  - exact Hne.
  - apply trim_idempotent.
  - intros H. apply trim_In in H. now apply (split_on_no_separator 44 _ p Hp).
Qed.

(** X15: a configuration written as usable origins with commas between
    them is read back as these origins, in order. *)
Theorem allowed_origins_round_trip (origins : list jsstring) :
  Forall listable origins ->
  ALLOWED_ORIGINS (Some (join_commas origins)) = origins.
Proof.
  intros Hall. destruct origins as [|o rest]; [reflexivity|].
  unfold ALLOWED_ORIGINS. rewrite split_join_commas.
  - induction Hall as [|p ps [Hne [Ht _]] _ IH]; [reflexivity|].
    simpl. rewrite Ht. destruct p; [congruence|]. simpl. now rewrite IH.
  - discriminate.
  - apply Forall_forall. intros p Hp.
    now apply (proj1 (Forall_forall _ _) Hall p Hp).
Qed.

Lemma includes_iff (allowed : list jsstring) (o : jsstring) :
  includes allowed o = true <-> In o allowed.
Proof.
  unfold includes. rewrite existsb_exists. split.
  - intros [x [Hx E]]. apply jsstring_eqb_eq in E. now subst x.
  - intros H. exists o. split; [exact H|apply jsstring_eqb_refl].
Qed.

(** X16: which requests the CORS check passes, in terms of the
    configuration string: all of them when the variable is unset or every
    piece between its commas is blank; otherwise those with no [Origin]
    header or an empty one, and those whose [Origin] is, to the code unit,
    the trim of a piece. *)
Theorem cors_allows_iff (env : jsstring) (origin : option jsstring) :
  cors_allows (ALLOWED_ORIGINS None) origin = true
  /\ (cors_allows (ALLOWED_ORIGINS (Some env)) origin = true
      <-> (forall p, In p (split_on 44 env) -> blank p = true)
          \/ origin = None \/ origin = Some []
          \/ exists p, In p (split_on 44 env) /\ origin = Some (trim p)).
Proof.
  split; [reflexivity|].
  pose proof (allowed_nil_iff (Some env)) as Hnil.
  pose proof (allowed_In_iff (Some env)) as Hin.
  simpl in Hnil, Hin.
  destruct (ALLOWED_ORIGINS (Some env)) as [|a rest] eqn:E.
  - simpl. split; [|reflexivity]. intros _. left. now apply Hnil.
  - destruct origin as [[|c o]|].
    + split; auto.
    + change (cors_allows (a :: rest) (Some (c :: o)))
        with (includes (a :: rest) (c :: o)).
      rewrite includes_iff, Hin. split.
      * intros [_ [p [Hp Ht]]]. do 3 right. exists p. now rewrite Ht.
      * intros [H|[H|[H|[p [Hp H]]]]]; try discriminate H.
        -- apply Hnil in H. discriminate H.
        -- injection H as H. split; [discriminate|eauto].
    + split; auto.
Qed.

(** ** The prompt and the call *)

Lemma user_content_eq (lang : language) (safe : jsstring) :
  content (user lang safe) = content (user lang []) ++ safe.
Proof. destruct lang; vm_compute; reflexivity. Qed.


Section MoreOfTheCall.

Variable render : number -> jsstring.


End MoreOfTheCall.

(** ** What the fallback recovers *)

Ltac rooted_result :=
  let H := fresh in
  intro H; try discriminate H; injection H as <-; simpl in *;
  try reflexivity; try assumption; try discriminate.

Ltac split_conditions :=
  repeat match goal with
         | |- context [if ?b then _ else _] => destruct b
         end.

Lemma after_value_rooted (v : value) (st : list frame) (c : N) (s' : pstate) :
  rooted (SAfter v st) -> after_value v st c = Some s' -> rooted s'.
Proof.
  unfold after_value. intros Hs. destruct (json_ws c); [now intros [= <-]|].
  destruct st as [|[done|done key] [|f r]]; simpl in Hs; try discriminate;
    split_conditions; rooted_result.
Qed.

Lemma start_value_rooted (st : list frame) (c : N) (s' : pstate) :
  bottom_is_object st = true -> start_value st c = Some s' -> rooted s'.
Proof.
  intros Hs. unfold start_value.
  destruct st as [|f r]; [discriminate Hs|].
  split_conditions; rooted_result.
Qed.

Lemma step_rooted (s s' : pstate) (c : N) :
  rooted s -> step s c = Some s' -> rooted s'.
Proof.
  destruct s as [st|st|st|done st|done key st|p acc|p acc|p acc todo code
                 |rest v st|ph a st|v st]; cbn [step]; intros Hs.
  - destruct (json_ws c); [now intros [= <-]|now apply start_value_rooted].
  - destruct (json_ws c); [now intros [= <-]|].
    simpl in Hs. destruct st as [|f r]; [discriminate Hs|].
    destruct (c =? 93)%N; [rooted_result|].
    apply start_value_rooted. exact Hs.
  - destruct (json_ws c); [now intros [= <-]|].
    simpl in Hs. destruct st as [|f r]; split_conditions; rooted_result.
  - destruct (json_ws c); [now intros [= <-]|]. split_conditions; rooted_result.
  - destruct (json_ws c); [now intros [= <-]|].
    simpl in Hs. destruct st as [|f r]; split_conditions; rooted_result.
  - simpl in Hs. destruct p as [st|done st]; destruct st as [|f r];
      try discriminate Hs; split_conditions; rooted_result.
  - destruct (c =? 117)%N; [rooted_result|].
    destruct (unescape c); rooted_result.
  - destruct (hex_digit c); [|rooted_result].
    destruct todo as [|[|k]]; rooted_result.
  - simpl in Hs. destruct st as [|f r]; [discriminate Hs|].
    destruct rest as [|x [|y more]]; split_conditions; rooted_result.
  - simpl in Hs. destruct st as [|f r]; [discriminate Hs|].
    unfold step_number. destruct ph; split_conditions; try rooted_result;
      apply after_value_rooted; exact Hs.
  - now apply after_value_rooted.
Qed.

Lemma steps_rooted (text : jsstring) (s s' : pstate) :
  rooted s -> steps s text = Some s' -> rooted s'.
Proof.
  revert s. induction text as [|c rest IH]; intros s Hs; simpl.
  - now intros [= <-].
  - destruct (step s c) as [s1|] eqn:E; [|discriminate].
    apply IH. now apply (step_rooted s s1 c).
Qed.

(** A text that starts with '{' and is JSON is an object. *)
Lemma JSON_parse_brace (rest : jsstring) (v : value) :
  JSON_parse (123%N :: rest) = Some v -> is_object v = true.
Proof.
  unfold JSON_parse.
  change (steps (SValue []) (123%N :: rest)) with (steps (SKeyOrEnd []) rest).
  destruct (steps (SKeyOrEnd []) rest) as [s|] eqn:E; [|discriminate].
  apply steps_rooted in E; [|reflexivity].
  destruct s as [| | | | | | | | |ph a st|w st]; simpl; try discriminate.
  - destruct st as [|f r]; [discriminate E|]. destruct ph; discriminate.
  - destruct st as [|f r]; [|discriminate]. now intros [= <-].
Qed.

Section MoreOfTheParser.

Variable render : number -> jsstring.

(** X18: what the fallback of lines 119-120 recovers is an object: when
    the reply is not JSON as it is and the span between the first '{' and
    the last '}' is, the parsed value is an object, the reads of lines
    125-127 do not throw, and the request is answered 200 unless [String]
    throws on the type or the text of a bullet. *)
Theorem recovered_reply_is_an_object (textResp : jsstring) (parsed : value) :
  JSON_parse textResp = None ->
  parse_reply textResp = Some parsed ->
  is_object parsed = true
  /\ (forallb printable_bullet (bullets_of parsed) = true ->
      exists out, normalize render parsed = Go out).
Proof.
  intros Hdirect. unfold parse_reply. rewrite Hdirect.
  destruct (match_braces textResp) as [m|] eqn:Em; [|discriminate].
  apply match_braces_Some in Em. destruct Em as [pre [inner [post [_ [-> _]]]]].
  intros Hm. apply JSON_parse_brace in Hm. split; [exact Hm|].
  intros Hp. destruct parsed as [| | | | | |members]; try discriminate Hm.
  unfold normalize. cbn [Get attempt bind].
  remember (match own_property (str "bullets") members with
            | Some w => w | None => VUndefined end) as b.
  assert (E : match b with VArr items => items | _ => [] end
              = bullets_of (VObj members)).
  { unfold bullets_of. cbn [Get]. now rewrite <- Heqb. }
  rewrite E, (map_flow_defined render _ Hp). cbn [bind].
  eexists. reflexivity.
Qed.

End MoreOfTheParser.

(** ** The language *)

Lemma asked_posted (OPENAI_KEY safe : jsstring) (lang : language) :
  asked_language
    (mkPost (str "https://api.openai.com/v1/chat/completions")
       (mkPayload (str "gpt-4o-mini") [system; user lang safe] 500
          (mkNumber false 2 (-1)))
       (str "application/json") (str "Bearer " ++ OPENAI_KEY) 120000)
  = Some lang.
Proof.
  unfold asked_language. cbn [messages data].
  rewrite user_content_eq. destruct lang; vm_compute; reflexivity.
Qed.

Section MoreOfTheLanguage.

Variable render : number -> jsstring.

(** X19: every request the handler posts to the completion service asks
    for the summary in Spanish (in the first line of the user message, in
    the summary slot of the schema and in the last rule) exactly when the
    [language] of the body is the string "es", to the letter; for any
    other value, or none, it asks for English. *)
Theorem every_call_asks_in_the_language (OPENAI_KEY : jsstring)
    (post : post_request -> completion) (req_body : value) :
  summarize render req_body (callOpenAIChat_with OPENAI_KEY post)
  = summarize render req_body
      (callOpenAIChat_with OPENAI_KEY
         (fun rq => if language_matches (asked_language rq) (wants_spanish req_body)
                    then post rq else Failed)).
Proof.
  rewrite !summarize_cases.
  destruct (validate req_body) as [[lang trimmed]|r|] eqn:Hv; try reflexivity.
  destruct (validate_Go _ _ _ Hv) as [c [s [l [_ [Hl [-> _]]]]]].
  unfold callOpenAIChat_with. rewrite asked_posted.
  assert (E : language_matches (Some (lang_of l)) (wants_spanish req_body) = true).
  { unfold wants_spanish. rewrite Hl. destruct l as [| | | |t| |]; try reflexivity.
    simpl. destruct (jsstring_eqb t (str "es")); reflexivity. }
  now rewrite E.
Qed.

End MoreOfTheLanguage.

(** * Instances of the further properties, closed with [no_digits] *)

Ltac absent :=
  let H := fresh in
  intro H; vm_compute in H;
  repeat (destruct H as [H|H]; [discriminate H|]); exact H.

(** A request for Spanish is answered only by a service that was asked
    in Spanish, and one for English (here "ES" is not "es") only by one
    that was asked in English. *)
Example asked_in_spanish :
  summarize no_digits spanish_request
    (callOpenAIChat_with (str "key")
       (fun rq => match asked_language rq with
                  | Some es => Answered (Some (str "{}"))
                  | _ => Failed
                  end))
  = ok default_result
  /\ summarize no_digits
       (VObj [(str "text", VStr fifty); (str "language", VStr (str "ES"))])
       (callOpenAIChat_with (str "key")
          (fun rq => match asked_language rq with
                     | Some en => Answered (Some (str "{}"))
                     | _ => Failed
                     end))
     = ok default_result.
Proof. split; vm_compute; reflexivity. Qed.

Lemma rejected_request_ignores_upstream_witness :
  summarize no_digits (a_request []) (answering banana_reply)
  = summarize no_digits (a_request []) (answering (str "{}")).
Proof.
  apply (rejected_request_ignores_upstream no_digits (a_request [])
           (answering (str "{}")) (answering banana_reply)).
  vm_compute. reflexivity.
Defined.

Lemma blank_text_is_too_short_witness :
  summarize no_digits (a_request [32; 9; 10]%N) (answering (str "{}")) = text_too_short.
Proof.
  apply (blank_text_is_too_short no_digits (a_request [32; 9; 10]%N) 32 [9; 10]%N).
  - reflexivity.
  - vm_compute. reflexivity.
Defined.

Lemma summary_of_a_200_response_witness :
  exists parsed s,
    parsed_of (a_request fifty) (answering recovered_text) = Some parsed
    /\ Get parsed (str "summary") = Some s
    /\ field "summary" (summarize no_digits (a_request fifty) (answering recovered_text))
       = Some (sent (or_else s (VStr []))).
Proof.
  apply (summary_of_a_200_response no_digits (a_request fifty) (answering recovered_text)).
  vm_compute. reflexivity.
Defined.

Lemma bullet_of_a_non_object_witness :
  cleanBullet no_digits (VStr (str "a note")) = Go (bullet "con" "").
Proof.
  apply (bullet_of_a_non_object no_digits (VStr (str "a note"))). reflexivity.
Defined.

Lemma wrapped_object_is_recovered_witness :
  parse_reply (str "Here: " ++ (123%N :: json_text "'rating':'Risky'" ++ [125%N])
               ++ str " Bye.")
  = match JSON_parse (str "Here: " ++ (123%N :: json_text "'rating':'Risky'" ++ [125%N])
                      ++ str " Bye.") with
    | Some whole => Some whole
    | None => Some (VObj [(str "rating", VStr (str "Risky"))])
    end.
Proof.
  apply (wrapped_object_is_recovered (str "Here: ") (json_text "'rating':'Risky'")
           (str " Bye.") (VObj [(str "rating", VStr (str "Risky"))])).
  - absent.
  - absent.
  - vm_compute. reflexivity.
Defined.

Lemma padding_is_ignored_witness :
  summarize no_digits (a_request fifty) (answering (str "{}"))
  = summarize no_digits (a_request (fifty ++ [32%N])) (answering (str "{}")).
Proof.
  apply (padding_is_ignored no_digits (a_request fifty) (a_request (fifty ++ [32%N]))
           97 97 (repeat 97%N 49) (repeat 97%N 49 ++ [32%N])).
  - reflexivity.
  - reflexivity.
  - vm_compute. reflexivity.
  - reflexivity.
Defined.

Lemma allowed_origins_round_trip_witness :
  ALLOWED_ORIGINS (Some (join_commas two_origins)) = two_origins.
Proof.
  apply (allowed_origins_round_trip two_origins).
  repeat constructor; try discriminate; try (vm_compute; reflexivity); absent.
Defined.

Lemma recovered_reply_is_an_object_witness :
  is_object recovered_result = true
  /\ (forallb printable_bullet (bullets_of recovered_result) = true ->
      exists out, normalize no_digits recovered_result = Go out).
Proof.
  apply (recovered_reply_is_an_object no_digits wrapped_reply recovered_result).
  - vm_compute. reflexivity.
  - vm_compute. reflexivity.
Defined.

(** The CORS example of the specification: with one allowed origin,
    another origin is refused, no origin passes; with none configured,
    every origin passes. *)
Example cors_example :
  cors_allows (ALLOWED_ORIGINS (Some (str "https://a.example")))
              (Some (str "https://b.example")) = false
  /\ cors_allows (ALLOWED_ORIGINS (Some (str "https://a.example"))) None = true
  /\ cors_allows (ALLOWED_ORIGINS (Some [])) (Some (str "https://b.example")) = true
  /\ cors_allows (ALLOWED_ORIGINS (Some (str " , "))) (Some (str "https://b.example")) = true.
Proof. repeat split; vm_compute; reflexivity. Qed.
